(** * js/transform.js: Transform and UndoStack

    A shallow embedding of the two classes of [js/transform.js] and the
    properties of the specification that concern them.

    Conventions of the embedding.

    - JavaScript numbers are taken in exact arithmetic: a finite number is a
      canonical rational ([Qc]); the non-finite results that the operators of
      the source can produce from finite operands ([1/0], and [NaN] from the
      coercion of [undefined] or of an array) are explicit constructors.
      Rounding and the sign of zero are outside the embedding.
    - A JavaScript value that may be absent ([undefined] or [null]) is an
      [option]; the [amount] of a Transform is a [value]: [undefined] (not
      [null], which the arithmetic of the source treats as 0), a number, or
      an array of three numbers.  An axis is one of the four names of the
      data model, or absent; the [op] argument of the constructor is any
      string, or absent, and the [op] field is one of the five names that
      the source assigns to it, or unset.
    - A [TypeError] raised by the source (a property read on [undefined], a
      call of something that is not a function) is the [TypeError] outcome.
    - The model and the message sink are collaborators that live outside
      [transform.js].  Every call that the source makes on them is appended to
      an event log, in program order; a model or a sink is then any
      interpretation of that log. *)

From Stdlib Require Import List String Bool ZArith QArith Qcanon Lia.
From Stdlib Require Import DecimalString.
Import ListNotations.

Set Implicit Arguments.

Close Scope Qc_scope.
Close Scope Q_scope.
Open Scope string_scope.
Open Scope list_scope.

(** ** Numbers and values *)

Inductive num : Type :=
| Fin (q : Qc)
| PInf
| NInf
| NaN.

(** [-1 * n] *)
Definition neg (n : num) : num :=
  match n with
  | Fin q => Fin (Q2Qc (-1)%Q * q)%Qc
  | PInf => NInf
  | NInf => PInf
  | NaN => NaN
  end.

(** [1 / n], in exact arithmetic.  The division of doubles rounds the
    quotient and overflows to [Infinity] on the smallest amounts; a result
    that needs the exact reciprocal says so, and what holds whatever the
    division returns is stated for [makeInverse_with] below. *)
Definition recip (n : num) : num :=
  match n with
  | Fin q => if Qeq_bool q 0%Q then PInf else Fin (1 / q)%Qc
  | PInf => Fin 0%Qc
  | NInf => Fin 0%Qc
  | NaN => NaN
  end.

(** [n <= 0]; every comparison with [NaN] is false. *)
Definition le0 (n : num) : bool :=
  match n with
  | Fin q => Qle_bool q 0%Q
  | PInf => false
  | NInf => true
  | NaN => false
  end.

Inductive value : Type :=
| Undef
| Num (n : num)
| Arr (a0 a1 a2 : num).

(** Outcome of an expression that may raise. *)
Inductive outcome (A : Type) : Type :=
| Ok (a : A)
| TypeError.

Arguments Ok {A} a.
Arguments TypeError {A}.

Definition obind {A B : Type} (o : outcome A) (k : A -> outcome B) : outcome B :=
  match o with
  | Ok a => k a
  | TypeError => TypeError
  end.

Declare Scope outcome_scope.
Delimit Scope outcome_scope with outcome.
Notation "x <- e ;; k" := (obind e (fun x => k))
  (at level 61, e at next level, right associativity) : outcome_scope.

(** ToNumber: [undefined] is [NaN]; an array of three elements prints with
    commas and so is not a numeric string. *)
Definition to_number (v : value) : num :=
  match v with
  | Undef => NaN
  | Num n => n
  | Arr _ _ _ => NaN
  end.

(** [v[i]] *)
Definition index (v : value) (i : nat) : outcome value :=
  match v with
  | Undef => TypeError
  | Num _ => Ok Undef
  | Arr a0 a1 a2 =>
      match i with
      | 0 => Ok (Num a0)
      | 1 => Ok (Num a1)
      | 2 => Ok (Num a2)
      | _ => Ok Undef
      end
  end.

(** Truthiness of [v.length]: a number has no [length], the array has 3. *)
Definition length_truthy (v : value) : outcome bool :=
  match v with
  | Undef => TypeError
  | Num _ => Ok false
  | Arr _ _ _ => Ok true
  end.

(** ** Axes, operations, collaborators *)

Inductive Axis : Type := axX | axY | axZ | axAll.

(** [axis == "all"] *)
Definition is_all (axis : option Axis) : bool :=
  match axis with
  | Some axAll => true
  | _ => false
  end.

(** The values that the source assigns to the [op] field. *)
Inductive Op : Type := noop | translate | rotate | scale | toggleWireframe.

Definition op_name (o : Op) : string :=
  match o with
  | noop => "noop"
  | translate => "translate"
  | rotate => "rotate"
  | scale => "scale"
  | toggleWireframe => "toggleWireframe"
  end.

Definition Op_eqb (a b : Op) : bool :=
  match a, b with
  | noop, noop | translate, translate | rotate, rotate
  | scale, scale | toggleWireframe, toggleWireframe => true
  | _, _ => false
  end.

(** [case s:] of a [switch] on a constructor argument. *)
Definition is_case (o : option string) (s : string) : bool :=
  match o with
  | Some x => String.eqb x s
  | None => false
  end.

(** [this.op == o] *)
Definition op_is (o : option Op) (k : Op) : bool :=
  match o with
  | Some x => Op_eqb x k
  | None => false
  end.

(** The message sink: the global [console] or a sink supplied by the caller. *)
Inductive sink : Type :=
| console
| custom (id : nat).

(** [printout ? printout : console] *)
Definition sink_or_console (printout : option nat) : sink :=
  match printout with
  | Some s => custom s
  | None => console
  end.

(** Modelled from the spec: the model object, whose class is not part of
    [transform.js].  The constructor reads its minimum bounds ([xmin], [ymin],
    [zmin]) and calls its centre queries ([getCenterx()], ...), taken to be
    pure; [ident] is the identity of the object, as a reference.  The record
    holds the answers at the time the constructor runs: the source reads them
    nowhere else, and only for the ops "floor" and "center", which
    [makeInverse] never passes on. *)
Record Model : Type := {
  ident : nat;
  xmin : num;
  ymin : num;
  zmin : num;
  getCenterx : num;
  getCentery : num;
  getCenterz : num
}.

(** [model[axis+"min"]]; the model has no such property for other axes. *)
Definition min_of (model : Model) (axis : option Axis) : value :=
  match axis with
  | Some axX => Num (xmin model)
  | Some axY => Num (ymin model)
  | Some axZ => Num (zmin model)
  | _ => Undef
  end.

(** [model["getCenter"+axis]()]; calling a missing method raises. *)
Definition getCenter_of (model : Model) (axis : option Axis) : outcome value :=
  match axis with
  | Some axX => Ok (Num (getCenterx model))
  | Some axY => Ok (Num (getCentery model))
  | Some axZ => Ok (Num (getCenterz model))
  | _ => TypeError
  end.

(** Calls made on the collaborators. *)
Inductive event : Type :=
| ModelTranslate (m : nat) (axis : option Axis) (amount : value)
| ModelRotate (m : nat) (axis : option Axis) (amount : value)
| ModelScale (m : nat) (axis : option Axis) (amount : value)
| ModelToggleWireframe (m : nat)
| Warn (s : sink) (message : option string).

Definition is_model_call (e : event) : bool :=
  match e with
  | Warn _ _ => false
  | _ => true
  end.

Definition model_calls (log : list event) : list event :=
  filter is_model_call log.

Definition is_warning (e : event) : bool := negb (is_model_call e).

Definition warnings (log : list event) : list event :=
  filter is_warning log.

(** ** Effects: an event log threaded through code that may raise *)

Definition Eff (A : Type) : Type := list event -> outcome A * list event.

Definition ret {A : Type} (a : A) : Eff A := fun log => (Ok a, log).

Definition bind {A B : Type} (m : Eff A) (k : A -> Eff B) : Eff B :=
  fun log =>
    match m log with
    | (Ok a, log') => k a log'
    | (TypeError, log') => (TypeError, log')
    end.

Definition lift {A : Type} (o : outcome A) : Eff A := fun log => (o, log).

Definition emit (e : event) : Eff unit := fun log => (Ok tt, log ++ [e]).

Declare Scope eff_scope.
Delimit Scope eff_scope with eff.
Notation "x <- e ;; k" := (bind e (fun x => k))
  (at level 61, e at next level, right associativity) : eff_scope.
Notation "e ;; k" := (bind e (fun _ => k))
  (at level 61, right associativity) : eff_scope.

(** ** Transform *)

(** The fields of a Transform object.  A field that the constructor has not
    assigned is [None] (for [amount] and [start]: [Undef]). *)
Record transform : Type := {
  printout : sink;
  op : option Op;
  reason : option string;
  model : option Model;
  dynamic : option bool;
  axis : option Axis;
  amount : value;
  inverse : option bool;
  start : value
}.

(** The object at the entry of the constructor: only [printout] is set. *)
Definition fresh (p : sink) : transform :=
  {| printout := p; op := None; reason := None; model := None; dynamic := None;
     axis := None; amount := Undef; inverse := None; start := Undef |}.

(** Field assignments, [this.f = v]. *)
Definition set_op (v : Op) (t : transform) : transform :=
  {| printout := printout t; op := Some v; reason := reason t; model := model t;
     dynamic := dynamic t; axis := axis t; amount := amount t;
     inverse := inverse t; start := start t |}.

Definition set_reason (v : string) (t : transform) : transform :=
  {| printout := printout t; op := op t; reason := Some v; model := model t;
     dynamic := dynamic t; axis := axis t; amount := amount t;
     inverse := inverse t; start := start t |}.

Definition set_model (v : Model) (t : transform) : transform :=
  {| printout := printout t; op := op t; reason := reason t; model := Some v;
     dynamic := dynamic t; axis := axis t; amount := amount t;
     inverse := inverse t; start := start t |}.

Definition set_dynamic (v : bool) (t : transform) : transform :=
  {| printout := printout t; op := op t; reason := reason t; model := model t;
     dynamic := Some v; axis := axis t; amount := amount t;
     inverse := inverse t; start := start t |}.

Definition set_axis (v : option Axis) (t : transform) : transform :=
  {| printout := printout t; op := op t; reason := reason t; model := model t;
     dynamic := dynamic t; axis := v; amount := amount t;
     inverse := inverse t; start := start t |}.

Definition set_amount (v : value) (t : transform) : transform :=
  {| printout := printout t; op := op t; reason := reason t; model := model t;
     dynamic := dynamic t; axis := axis t; amount := v;
     inverse := inverse t; start := start t |}.

Definition set_inverse (v : bool) (t : transform) : transform :=
  {| printout := printout t; op := op t; reason := reason t; model := model t;
     dynamic := dynamic t; axis := axis t; amount := amount t;
     inverse := Some v; start := start t |}.

Definition set_start (v : value) (t : transform) : transform :=
  {| printout := printout t; op := op t; reason := reason t; model := model t;
     dynamic := dynamic t; axis := axis t; amount := amount t;
     inverse := inverse t; start := v |}.

(** [this.inverse ? ... : ...] *)
Definition inverse_truthy (t : transform) : bool :=
  match inverse t with
  | Some b => b
  | None => false
  end.

Section Embedding.

(** Number.prototype.toString on a finite number.  The decimal rendering of
    a number is not fixed here: everything below holds for each rendering. *)
Variable number_toString : Qc -> string.

Definition num_to_string (n : num) : string :=
  match n with
  | Fin q => number_toString q
  | PInf => "Infinity"
  | NInf => "-Infinity"
  | NaN => "NaN"
  end.

(** String conversion of an amount, as in ["..." + amount]; an array joins
    its elements with commas. *)
Definition value_to_string (v : value) : string :=
  match v with
  | Undef => "undefined"
  | Num n => num_to_string n
  | Arr a0 a1 a2 =>
      String.append (num_to_string a0)
        (String.append "," (String.append (num_to_string a1)
           (String.append "," (num_to_string a2))))
  end.

(** [amount<=0 || (amount.length && (amount[0]<=0 || amount[1]<=0 ||
    amount[2]<=0))], as a truth value. *)
Definition isBadScale (amount : value) : outcome bool :=
  if le0 (to_number amount) then Ok true
  else
    (has_length <- length_truthy amount ;;
     if has_length : bool then
       a0 <- index amount 0 ;;
       a1 <- index amount 1 ;;
       a2 <- index amount 2 ;;
       Ok (le0 (to_number a0) || le0 (to_number a1) || le0 (to_number a2))
     else Ok false)%outcome.

(** [new Transform(op, axis, amount, model, printout)] *)
Definition Transform (op : option string) (axis : option Axis) (amount : value)
    (model : option Model) (printout : option nat) : outcome transform :=
  let this := fresh (sink_or_console printout) in
  match model with
  | None =>
      let this := set_op noop this in
      let this := set_reason "Model doesn't exist." this in
      Ok this
  | Some model =>
      let this := set_model model this in
      let this := set_dynamic false this in
      if is_case op "floor" then
        let this := set_op translate this in
        let this := set_axis axis this in
        if is_all axis then
          Ok (set_amount (Arr (neg (xmin model)) (neg (ymin model))
                              (neg (zmin model))) this)
        else
          Ok (set_amount (Num (neg (to_number (min_of model axis)))) this)
      else if is_case op "center" then
        let this := set_op translate this in
        let this := set_axis axis this in
        if is_all axis then
          Ok (set_amount (Arr (neg (getCenterx model)) (neg (getCentery model))
                              (neg (getCenterz model))) this)
        else
          (c <- getCenter_of model axis ;;
           Ok (set_amount (Num (neg (to_number c))) this))%outcome
      else if is_case op "translate" then
        let this := set_op translate this in
        let this := set_axis axis this in
        Ok (set_amount amount this)
      else if is_case op "rotate" then
        let this := set_op rotate this in
        let this := set_axis axis this in
        Ok (set_amount amount this)
      else if is_case op "scale" then
        (bad <- isBadScale amount ;;
         if bad : bool then
           let this := set_op noop this in
           let this :=
             set_reason (String.append "Cannot scale by 0 or negative numbers: "
                                       (value_to_string amount)) this in
           Ok this
         else
           let this := set_op scale this in
           let this := set_axis axis this in
           Ok (set_amount amount this))%outcome
      else if is_case op "toggleWireframe" then
        Ok (set_op toggleWireframe this)
      else Ok this
  end.

(** [Transform.prototype.makeInverse]; [null] is [None]. *)
Definition makeInverse (this : transform) : outcome (option transform) :=
  if op_is (op this) noop then Ok None
  else
    (amount <-
       (if op_is (op this) scale then
          if is_all (axis this) then
            a0 <- index (amount this) 0 ;;
            a1 <- index (amount this) 1 ;;
            a2 <- index (amount this) 2 ;;
            Ok (Arr (recip (to_number a0)) (recip (to_number a1))
                    (recip (to_number a2)))
          else Ok (Num (recip (to_number (amount this))))
        else
          if is_all (axis this) then
            a0 <- index (amount this) 0 ;;
            a1 <- index (amount this) 1 ;;
            a2 <- index (amount this) 2 ;;
            Ok (Arr (neg (to_number a0)) (neg (to_number a1))
                    (neg (to_number a2)))
          else Ok (Num (neg (to_number (amount this))))) ;;
     inv <- Transform (option_map op_name (op this)) (axis this) amount
                      (model this) None ;;
     let inv := set_inverse true inv in
     Ok (Some inv))%outcome.

(** [Transform.prototype.makeInverse] with the division left open:
    [one_over x] stands for the quotient [1/x] as the machine computes it.
    [makeInverse] is [makeInverse_with recip], the exact reciprocal. *)
Definition makeInverse_with (one_over : num -> num) (this : transform)
  : outcome (option transform) :=
  if op_is (op this) noop then Ok None
  else
    (amount <-
       (if op_is (op this) scale then
          if is_all (axis this) then
            a0 <- index (amount this) 0 ;;
            a1 <- index (amount this) 1 ;;
            a2 <- index (amount this) 2 ;;
            Ok (Arr (one_over (to_number a0)) (one_over (to_number a1))
                    (one_over (to_number a2)))
          else Ok (Num (one_over (to_number (amount this))))
        else
          if is_all (axis this) then
            a0 <- index (amount this) 0 ;;
            a1 <- index (amount this) 1 ;;
            a2 <- index (amount this) 2 ;;
            Ok (Arr (neg (to_number a0)) (neg (to_number a1))
                    (neg (to_number a2)))
          else Ok (Num (neg (to_number (amount this))))) ;;
     inv <- Transform (option_map op_name (op this)) (axis this) amount
                      (model this) None ;;
     let inv := set_inverse true inv in
     Ok (Some inv))%outcome.

(** [this.model.f]: reading a method of an absent model raises. *)
Definition the_model (this : transform) : Eff Model :=
  lift (match model this with
        | Some m => Ok m
        | None => TypeError
        end).

(** One call of a model primitive, [this.model.f(axis, arg)]: the method is
    looked up on the model, then the argument is evaluated, then the call is
    made. *)
Definition call_model (f : nat -> option Axis -> value -> event)
    (this : transform) (axis : option Axis) (arg : outcome value) : Eff unit :=
  (m <- the_model this ;;
   a <- lift arg ;;
   emit (f (ident m) axis a))%eff.

(** [["z","y","x"][i]] and [["x","y","z"][i]] *)
Definition axisOrder (inv : bool) (i : nat) : option Axis :=
  if inv then
    match i with 0 => Some axZ | 1 => Some axY | 2 => Some axX | _ => None end
  else
    match i with 0 => Some axX | 1 => Some axY | 2 => Some axZ | _ => None end.

(** [Transform.prototype.apply] *)
Definition apply (this : transform) : Eff unit :=
  match op this with
  | Some noop => emit (Warn (printout this) (reason this))
  | Some translate =>
      if is_all (axis this) then
        (call_model ModelTranslate this (Some axX) (index (amount this) 0) ;;
         call_model ModelTranslate this (Some axY) (index (amount this) 1) ;;
         call_model ModelTranslate this (Some axZ) (index (amount this) 2))%eff
      else call_model ModelTranslate this (axis this) (Ok (amount this))
  | Some rotate =>
      if is_all (axis this) then
        let axisOrder := axisOrder (inverse_truthy this) in
        (call_model ModelRotate this (axisOrder 0) (index (amount this) 0) ;;
         call_model ModelRotate this (axisOrder 1) (index (amount this) 1) ;;
         call_model ModelRotate this (axisOrder 2) (index (amount this) 2))%eff
      else call_model ModelRotate this (axis this) (Ok (amount this))
  | Some scale =>
      if is_all (axis this) then
        (call_model ModelScale this (Some axX) (index (amount this) 0) ;;
         call_model ModelScale this (Some axY) (index (amount this) 0) ;;
         call_model ModelScale this (Some axZ) (index (amount this) 0))%eff
      else call_model ModelScale this (axis this) (Ok (amount this))
  | Some toggleWireframe =>
      (m <- the_model this ;; emit (ModelToggleWireframe (ident m)))%eff
  | None => ret tt
  end.

(** [setDynamicStart] and [setAmount] *)
Definition setDynamicStart (start : value) (this : transform) : transform :=
  set_start start (set_dynamic true this).

Definition setAmount (amount : value) (this : transform) : transform :=
  set_amount amount this.

(** ** UndoStack *)

Record undo_stack : Type := {
  stack_printout : sink;
  history : list transform
}.

(** [new UndoStack(printout)] *)
Definition UndoStack (printout : option nat) : undo_stack :=
  {| stack_printout := sink_or_console printout; history := [] |}.

Definition set_history (h : list transform) (s : undo_stack) : undo_stack :=
  {| stack_printout := stack_printout s; history := h |}.

(** [Array.prototype.pop] on a non-empty array: the array without its last
    element, and that element. *)
Definition pop {A : Type} (l : list A) : option (list A * A) :=
  match rev l with
  | [] => None
  | x :: r => Some (rev r, x)
  end.

(** [UndoStack.prototype.undo]: the stack after the call, and the effect of
    the call on the collaborators.  The entry is popped before it is applied,
    so the stack has lost it also when [apply] raises. *)
Definition undo (this : undo_stack) : undo_stack * Eff unit :=
  match pop (history this) with
  | None =>
      (this, emit (Warn (stack_printout this) (Some "No undo history available.")))
  | Some (rest, inv) => (set_history rest this, apply inv)
  end.

(** [UndoStack.prototype.push]: [if (inv) this.history.push(inv)] *)
Definition push (inv : option transform) (this : undo_stack) : undo_stack :=
  match inv with
  | Some t => set_history (history this ++ [t]) this
  | None => this
  end.

(** [UndoStack.prototype.clear] *)
Definition clear (this : undo_stack) : undo_stack :=
  set_history [] this.

(** ** The vocabulary of the specification *)

(** Arithmetic negation and reciprocal of a number, and their componentwise
    extension to an amount.  [reciprocal] is meant for a finite number other
    than zero, which is all that a scale amount can be. *)
Definition negation (n : num) : num :=
  match n with
  | Fin q => Fin (- q)%Qc
  | PInf => NInf
  | NInf => PInf
  | NaN => NaN
  end.

Definition reciprocal (n : num) : num :=
  match n with
  | Fin q => Fin (/ q)%Qc
  | PInf => Fin 0%Qc
  | NInf => Fin 0%Qc
  | NaN => NaN
  end.

Definition componentwise (f : num -> num) (v : value) : value :=
  match v with
  | Undef => Undef
  | Num a => Num (f a)
  | Arr a0 a1 a2 => Arr (f a0) (f a1) (f a2)
  end.

(** [n > 0] and [n <= 0] for a number. *)
Definition positive (n : num) : Prop :=
  match n with
  | Fin q => (0 < q)%Qc
  | _ => False
  end.

Definition nonpositive (n : num) : Prop :=
  match n with
  | Fin q => (q <= 0)%Qc
  | NInf => True
  | _ => False
  end.

(** The shape invariant of the data model: a triple exactly when the axis is
    ["all"], a single number otherwise. *)
Definition shaped (axis : option Axis) (amount : value) : Prop :=
  match amount with
  | Undef => False
  | Num _ => is_all axis = false
  | Arr _ _ _ => is_all axis = true
  end.

Definition all_positive (amount : value) : Prop :=
  match amount with
  | Undef => False
  | Num a => positive a
  | Arr a0 a1 a2 => positive a0 /\ positive a1 /\ positive a2
  end.

(** A scale amount that the constructor is specified to reject. *)
Definition some_nonpositive (amount : value) : Prop :=
  match amount with
  | Undef => False
  | Num a => nonpositive a
  | Arr a0 a1 a2 => nonpositive a0 \/ nonpositive a1 \/ nonpositive a2
  end.

(** The invariants of a Transform in the data model: a Transform that acts
    on a model has one; the amount of a translation, rotation or scaling has
    the shape of its axis; a scale amount is strictly positive; a wireframe
    toggle, and a Transform whose [op] was never assigned, has no axis. *)
Definition well_formed (t : transform) : Prop :=
  match op t with
  | Some noop => True
  | Some translate | Some rotate =>
      model t <> None /\ shaped (axis t) (amount t)
  | Some scale =>
      model t <> None /\ shaped (axis t) (amount t) /\ all_positive (amount t)
  | Some toggleWireframe | None =>
      model t <> None /\ axis t = None
  end.

(** The amount that the specification gives to a floor Transform: the
    negated minimum along the axis, or the triple of the three. *)
Definition negated_minimum (m : Model) (ax : Axis) : value :=
  match ax with
  | axX => Num (negation (xmin m))
  | axY => Num (negation (ymin m))
  | axZ => Num (negation (zmin m))
  | axAll => Arr (negation (xmin m)) (negation (ymin m)) (negation (zmin m))
  end.

(** Finite amounts: the numbers of the data model. *)
Definition finite (amt : value) : Prop :=
  match amt with
  | Num (Fin _) => True
  | Arr (Fin _) (Fin _) (Fin _) => True
  | _ => False
  end.

(** The object after [this.model = model; this.dynamic = false]. *)
Definition started (m : Model) (p : option nat) : transform :=
  set_dynamic false (set_model m (fresh (sink_or_console p))).

(** The op names that the constructor knows. *)
Definition known_op (o : option string) : bool :=
  is_case o "floor" || is_case o "center" || is_case o "translate"
  || is_case o "rotate" || is_case o "scale" || is_case o "toggleWireframe".

(** ** Reference models of the collaborators *)

(** Modelled from the spec: the scale state of a model, whose class is not
    part of [transform.js]: one factor per axis, and [scale(axis, a)]
    multiplies the factor of [axis] by [a].  A call whose arguments are not an
    axis and a finite number is outside the model's contract and is skipped. *)
Record scales : Type := { sx : Qc; sy : Qc; sz : Qc }.

Definition scale_axis (axis : Axis) (a : Qc) (s : scales) : scales :=
  match axis with
  | axX => {| sx := sx s * a; sy := sy s; sz := sz s |}
  | axY => {| sx := sx s; sy := sy s * a; sz := sz s |}
  | axZ => {| sx := sx s; sy := sy s; sz := sz s * a |}
  | axAll => s
  end%Qc.

Definition scale_step (m : nat) (s : scales) (e : event) : scales :=
  match e with
  | ModelScale m' (Some axis) (Num (Fin a)) =>
      if Nat.eqb m' m then scale_axis axis a s else s
  | _ => s
  end.

(** The scale state of model [m] after the calls of [log], from [s0]. *)
Definition scale_state (m : nat) (s0 : scales) (log : list event) : scales :=
  fold_left (scale_step m) log s0.

(** Modelled from the spec: the orientation of a model, whose class is not
    part of [transform.js], in exact arithmetic.  The model is restricted to
    rotations by whole quarter turns, with the quarter turn as the unit of
    the amount, so that every rotation is an integer matrix: the orientation
    is the image of the three basis vectors.  A call whose arguments are not
    an axis and an integer is skipped. *)
Definition vec : Type := (Z * Z * Z)%type.

Definition quarter_turn (axis : Axis) (v : vec) : vec :=
  let '(x, y, z) := v in
  match axis with
  | axX => (x, - z, y)
  | axY => (z, y, - x)
  | axZ => (- y, x, z)
  | axAll => v
  end%Z.

Definition turns (axis : Axis) (k : Z) (v : vec) : vec :=
  Nat.iter (Z.to_nat (k mod 4)) (quarter_turn axis) v.

Definition frame : Type := (vec * vec * vec)%type.

Definition upright : frame := ((1, 0, 0), (0, 1, 0), (0, 0, 1))%Z.

Definition rotate_frame (axis : Axis) (k : Z) (f : frame) : frame :=
  let '(e1, e2, e3) := f in (turns axis k e1, turns axis k e2, turns axis k e3).

Definition orientation_step (m : nat) (f : frame) (e : event) : frame :=
  match e with
  | ModelRotate m' (Some axis) (Num (Fin q)) =>
      if Nat.eqb m' m && Pos.eqb (Qden q) 1
      then rotate_frame axis (Qnum q) f else f
  | _ => f
  end.

(** The orientation of model [m] after the calls of [log], from [f0]. *)
Definition orientation (m : nat) (f0 : frame) (log : list event) : frame :=
  fold_left (orientation_step m) log f0.

(** An integer amount. *)
Definition integer (z : Z) : num := Fin (Q2Qc (inject_Z z)).

(** Modelled from the spec: the position of a model, whose class is not
    part of [transform.js]: one coordinate per axis, and [translate(axis, a)]
    adds [a] to the coordinate of [axis].  A call whose arguments are not an
    axis and a finite number is outside the model's contract and is skipped. *)
Record position : Type := { px : Qc; py : Qc; pz : Qc }.

Definition translate_axis (axis : Axis) (a : Qc) (s : position) : position :=
  match axis with
  | axX => {| px := px s + a; py := py s; pz := pz s |}
  | axY => {| px := px s; py := py s + a; pz := pz s |}
  | axZ => {| px := px s; py := py s; pz := pz s + a |}
  | axAll => s
  end%Qc.

Definition position_step (m : nat) (s : position) (e : event) : position :=
  match e with
  | ModelTranslate m' (Some axis) (Num (Fin a)) =>
      if Nat.eqb m' m then translate_axis axis a s else s
  | _ => s
  end.

(** The position of model [m] after the calls of [log], from [s0]. *)
Definition position_state (m : nat) (s0 : position) (log : list event)
  : position :=
  fold_left (position_step m) log s0.

(** Modelled from the spec: the wireframe flag of a model, which
    [toggleWireframe()] flips. *)
Definition wireframe_step (m : nat) (b : bool) (e : event) : bool :=
  match e with
  | ModelToggleWireframe m' => if Nat.eqb m' m then negb b else b
  | _ => b
  end.

Definition wireframe_state (m : nat) (b0 : bool) (log : list event) : bool :=
  fold_left (wireframe_step m) log b0.

(** The amount of a centre Transform: the negated centre along the axis, or
    the triple of the three. *)
Definition negated_centre (m : Model) (ax : Axis) : value :=
  match ax with
  | axX => Num (negation (getCenterx m))
  | axY => Num (negation (getCentery m))
  | axZ => Num (negation (getCenterz m))
  | axAll => Arr (negation (getCenterx m)) (negation (getCentery m))
                 (negation (getCenterz m))
  end.

(** The calls that belong to a Transform: the primitive of its op on its own
    model, and the warning of a noop, with its reason, on its own sink. *)
Definition on_model_of (t : transform) (m : nat) : Prop :=
  exists md, model t = Some md /\ ident md = m.

Definition own_event (t : transform) (e : event) : Prop :=
  match e with
  | ModelTranslate m _ _ => op t = Some translate /\ on_model_of t m
  | ModelRotate m _ _ => op t = Some rotate /\ on_model_of t m
  | ModelScale m _ _ => op t = Some scale /\ on_model_of t m
  | ModelToggleWireframe m => op t = Some toggleWireframe /\ on_model_of t m
  | Warn s msg => op t = Some noop /\ s = printout t /\ msg = reason t
  end.

(** The number of calls that [apply] makes for a Transform. *)
Definition call_count (t : transform) : nat :=
  match op t with
  | None => 0
  | Some noop | Some toggleWireframe => 1
  | Some _ => if is_all (axis t) then 3 else 1
  end.

(** Pushing the Transforms of a list, first to last. *)
Definition push_all (ts : list transform) (s : undo_stack) : undo_stack :=
  fold_left (fun s t => push (Some t) s) ts s.

(** [n] calls of [undo], each made on its own, so that a call that raises
    does not keep the next from being made: the stack and the log after. *)
Fixpoint undo_times (n : nat) (s : undo_stack) (log : list event)
  : undo_stack * list event :=
  match n with
  | 0 => (s, log)
  | S n' => undo_times n' (fst (undo s)) (snd (snd (undo s) log))
  end.

(** The log after applying the Transforms of a list, first to last. *)
Definition apply_each (ts : list transform) (log : list event) : list event :=
  fold_left (fun log t => snd (apply t log)) ts log.

(** A rendering of finite numbers with which the results below are run on
    concrete inputs: numerator, slash, denominator. *)
Definition ratio_toString (q : Qc) : string :=
  String.append (NilZero.string_of_int (Z.to_int (Qnum q)))
    (String.append "/" (NilZero.string_of_uint (Pos.to_uint (Qden q)))).

(** A model with the bounds of the floor scenario of the specification. *)
Definition sample_model : Model :=
  {| ident := 1;
     xmin := integer (-2); ymin := integer 0; zmin := integer 5;
     getCenterx := integer 0; getCentery := integer 1;
     getCenterz := integer 7 |}.

(** * Properties *)

(** ** Numbers *)

Lemma neg_negation (n : num) : neg n = negation n.
Proof.
  destruct n; reflexivity.
Qed.

Lemma Qeq_bool_zero (q : Qc) : Qeq_bool q 0%Q = true -> q = 0%Qc.
Proof.
  intros H. apply Qc_is_canon. now apply Qeq_bool_eq.
Qed.

Lemma positive_nonzero (q : Qc) : (0 < q)%Qc -> q <> 0%Qc.
Proof.
  intros H E. subst q. now apply (Qclt_not_eq _ _ H).
Qed.

Lemma recip_positive (q : Qc) : (0 < q)%Qc -> recip (Fin q) = Fin (/ q)%Qc.
Proof.
  intros H. simpl. destruct (Qeq_bool q 0%Q) eqn:E.
  - apply Qeq_bool_zero in E. now apply positive_nonzero in H.
  - f_equal. unfold Qcdiv. ring.
Qed.

Lemma recip_reciprocal (n : num) : positive n -> recip n = reciprocal n.
Proof.
  destruct n; simpl; try contradiction. apply recip_positive.
Qed.

Lemma le0_nonpositive (n : num) : le0 n = true <-> nonpositive n.
Proof.
  destruct n; simpl; try (split; [discriminate | contradiction]).
  - apply Qle_bool_iff.
  - tauto.
Qed.

Lemma positive_le0 (n : num) : positive n -> le0 n = false.
Proof.
  intros H. destruct (le0 n) eqn:E; trivial.
  apply le0_nonpositive in E. destruct n; simpl in *; try contradiction.
  exfalso. revert E. now apply Qclt_not_le.
Qed.

Lemma inv_positive (q : Qc) : (0 < q)%Qc -> (0 < / q)%Qc.
Proof.
  intros H. unfold Qclt. simpl.
  rewrite Qred_correct. now apply Qinv_lt_0_compat.
Qed.

Lemma reciprocal_positive (n : num) : positive n -> positive (reciprocal n).
Proof.
  destruct n; simpl; try contradiction. apply inv_positive.
Qed.

(** ** Effects *)

Lemma call_model_Ok (f : nat -> option Axis -> value -> event)
    (this : transform) (ax : option Axis) (a : value) (m : Model)
    (log : list event) :
  model this = Some m ->
  call_model f this ax (Ok a) log = (Ok tt, log ++ [f (ident m) ax a]).
Proof.
  intros H. unfold call_model, the_model, bind, lift, emit.
  now rewrite H.
Qed.

Lemma model_calls_app (l1 l2 : list event) :
  model_calls (l1 ++ l2) = model_calls l1 ++ model_calls l2.
Proof. apply filter_app. Qed.

Lemma warnings_app (l1 l2 : list event) :
  warnings (l1 ++ l2) = warnings l1 ++ warnings l2.
Proof. apply filter_app. Qed.

Lemma model_calls_warn (log : list event) (s : sink) (msg : option string) :
  model_calls (log ++ [Warn s msg]) = model_calls log.
Proof.
  rewrite model_calls_app. simpl. apply app_nil_r.
Qed.

(** Runs [apply] on a Transform whose fields are known. *)
Ltac run_apply :=
  unfold apply, call_model, the_model, bind, lift, emit; simpl;
  rewrite <- ?app_assoc; reflexivity.

(** A noop Transform only warns. *)
Lemma apply_noop (t : transform) (log : list event) :
  op t = Some noop ->
  apply t log = (Ok tt, log ++ [Warn (printout t) (reason t)]).
Proof.
  intros H. unfold apply. now rewrite H.
Qed.

(** [apply] only appends to the log, also when it raises. *)
Lemma apply_appends (t : transform) (log : list event) :
  exists evs, snd (apply t log) = log ++ evs.
Proof.
  unfold apply, call_model, the_model, bind, lift, emit, ret.
  destruct (op t) as [[] |]; destruct (is_all (axis t));
    destruct (model t); destruct (amount t); simpl;
    rewrite <- ?app_assoc; eexists;
    first [reflexivity | symmetry; apply app_nil_r].
Qed.

(** ** The constructor *)

(** C7. Whatever the op, the axis and the amount, a Transform built without
    a model is a noop whose reason is "Model doesn't exist."; the constructor
    returns before any other logic: it assigns no other field (no model, no
    axis, no amount) and it cannot raise, also on arguments on which the
    scale validation or the centre query would. *)
Theorem absent_model_is_noop (o : option string) (ax : option Axis)
    (amt : value) (p : option nat) :
  Transform o ax amt None p =
    Ok {| printout := sink_or_console p;
          op := Some noop;
          reason := Some "Model doesn't exist.";
          model := None; dynamic := None; axis := None; amount := Undef;
          inverse := None; start := Undef |}.
Proof. reflexivity. Qed.

(** C8. A floor Transform is a translation by the negated minimum bound of
    the model: along one axis, [-model[axis+"min"]]; for "all", the triple of
    the negated minima in the order x, y, z.  In particular, for a model with
    [xmin = -2], [ymin = 0], [zmin = 5], floor on "all" has amount
    [[2, 0, -5]]. *)
Theorem floor_negates_minimum (ax : Axis) (amt : value) (m : Model)
    (p : option nat) (i : nat) (cx cy cz : num) :
  (exists t,
      Transform (Some "floor") (Some ax) amt (Some m) p = Ok t
      /\ op t = Some translate
      /\ axis t = Some ax
      /\ amount t = negated_minimum m ax)
  /\ (exists t,
      Transform (Some "floor") (Some axAll) amt
        (Some {| ident := i;
                 xmin := integer (-2); ymin := integer 0; zmin := integer 5;
                 getCenterx := cx; getCentery := cy; getCenterz := cz |}) p
      = Ok t
      /\ op t = Some translate
      /\ amount t = Arr (integer 2) (integer 0) (integer (-5))).
Proof.
  split.
  - destruct ax; eexists; (split; [reflexivity |]); simpl;
      rewrite ?neg_negation; auto.
  - eexists. split; [reflexivity |]. split; reflexivity.
Qed.

(** An op outside the six names falls through the [switch]. *)
Lemma known_op_false (o : option string) :
  known_op o = false ->
  is_case o "floor" = false /\ is_case o "center" = false
  /\ is_case o "translate" = false /\ is_case o "rotate" = false
  /\ is_case o "scale" = false /\ is_case o "toggleWireframe" = false.
Proof.
  unfold known_op. intros H.
  repeat (apply orb_false_elim in H; destruct H as [H ?]). tauto.
Qed.

(** C10. With a model, an op outside floor, center, translate, rotate,
    scale and toggleWireframe makes the constructor return normally a
    Transform whose [op] is unset; [apply] on it falls through its [switch]:
    no call on the model and no message, the log is unchanged. *)
Theorem unknown_op_leaves_op_unset (o : option string) (ax : option Axis)
    (amt : value) (m : Model) (p : option nat) (log : list event) :
  known_op o = false ->
  exists t,
    Transform o ax amt (Some m) p = Ok t
    /\ op t = None
    /\ t = set_dynamic false (set_model m (fresh (sink_or_console p)))
    /\ apply t log = (Ok tt, log).
Proof.
  intros H. apply known_op_false in H.
  destruct H as (H1 & H2 & H3 & H4 & H5 & H6).
  eexists. split.
  - unfold Transform. rewrite H1, H2, H3, H4, H5, H6. reflexivity.
  - repeat split.
Qed.

(** The validation of a scale amount, on the amounts it rejects and on the
    amounts of the data model that it accepts. *)
Lemma isBadScale_nonpositive (amt : value) :
  some_nonpositive amt -> isBadScale amt = Ok true.
Proof.
  destruct amt as [| n | a0 a1 a2]; simpl; [contradiction | |].
  - intros H. apply le0_nonpositive in H. unfold isBadScale. simpl.
    now rewrite H.
  - intros H. unfold isBadScale. simpl. f_equal.
    destruct H as [H | [H | H]]; apply le0_nonpositive in H; rewrite H;
      rewrite ?orb_true_r; reflexivity.
Qed.

Lemma isBadScale_positive (amt : value) :
  all_positive amt -> isBadScale amt = Ok false.
Proof.
  destruct amt as [| n | a0 a1 a2]; simpl; [contradiction | |].
  - intros H. unfold isBadScale. simpl. now rewrite (positive_le0 _ H).
  - intros (H0 & H1 & H2). unfold isBadScale. simpl.
    now rewrite (positive_le0 _ H0), (positive_le0 _ H1), (positive_le0 _ H2).
Qed.

(** The reason of a rejected scale amount. *)
Lemma bad_scale_reason (ax : option Axis) (amt : value) (m : Model)
    (p : option nat) :
  some_nonpositive amt ->
  exists t,
    Transform (Some "scale") ax amt (Some m) p = Ok t
    /\ reason t = Some (String.append "Cannot scale by 0 or negative numbers: "
                                      (value_to_string amt)).
Proof.
  intros H. unfold Transform. simpl. rewrite (isBadScale_nonpositive _ H).
  simpl. eauto.
Qed.

(** C6. A scale Transform built from a number [<= 0], or from a triple with
    a component [<= 0], is a noop with a reason that is not the empty string;
    [apply] on it makes no call on the model and passes the reason to [warn]
    of the message sink. *)
Theorem nonpositive_scale_is_noop (ax : option Axis) (amt : value)
    (md : option Model) (p : option nat) (log : list event) :
  some_nonpositive amt ->
  exists t r,
    Transform (Some "scale") ax amt md p = Ok t
    /\ op t = Some noop
    /\ reason t = Some r
    /\ r <> ""
    /\ apply t log = (Ok tt, log ++ [Warn (sink_or_console p) (Some r)])
    /\ model_calls (log ++ [Warn (sink_or_console p) (Some r)])
       = model_calls log.
Proof.
  intros H. destruct md as [m |].
  - unfold Transform. simpl. rewrite (isBadScale_nonpositive _ H). simpl.
    do 2 eexists. split; [reflexivity |]. simpl.
    repeat split; try discriminate. apply model_calls_warn.
  - do 2 eexists. split; [reflexivity |]. simpl.
    repeat split; try discriminate. apply model_calls_warn.
Qed.

(** ** apply *)

(** C3. A scale Transform on "all" with the triple [[a0, a1, a2]] calls the
    scale primitive of its model on x, on y and on z, each time with [a0];
    [a1] and [a2] do not reach the model. *)
Theorem scale_all_uses_first_component (t : transform) (a0 a1 a2 : num)
    (m : Model) (log : list event) :
  op t = Some scale ->
  axis t = Some axAll ->
  amount t = Arr a0 a1 a2 ->
  model t = Some m ->
  apply t log =
    (Ok tt, log ++ [ModelScale (ident m) (Some axX) (Num a0);
                    ModelScale (ident m) (Some axY) (Num a0);
                    ModelScale (ident m) (Some axZ) (Num a0)]).
Proof.
  intros Hop Hax Ham Hm. unfold apply. rewrite Hop, Hax, Ham. simpl.
  unfold bind. rewrite !(call_model_Ok _ _ _ _ _ Hm).
  now rewrite <- !app_assoc.
Qed.

(** ** makeInverse and the undo history *)

Lemma obind_Some_not_None {A B C : Type} (e : outcome A) (f : A -> outcome B)
    (g : B -> C) :
  obind e (fun a => obind (f a) (fun b => Ok (Some (g b)))) <> Ok None.
Proof.
  destruct e as [a |]; simpl; [destruct (f a); simpl |]; discriminate.
Qed.

Lemma makeInverse_noop (t : transform) :
  op t = Some noop -> makeInverse t = Ok None.
Proof.
  intros H. unfold makeInverse. now rewrite H.
Qed.

Lemma makeInverse_not_noop (t : transform) :
  op t <> Some noop -> makeInverse t <> Ok None.
Proof.
  intros H. unfold makeInverse.
  assert (E : op_is (op t) noop = false).
  { destruct (op t) as [[] |]; trivial. now elim H. }
  rewrite E. apply obind_Some_not_None.
Qed.

Lemma pop_snoc {A : Type} (l : list A) (x : A) : pop (l ++ [x]) = Some (l, x).
Proof.
  unfold pop. rewrite rev_app_distr. simpl. now rewrite rev_involutive.
Qed.

(** [undo] after [push] applies the pushed Transform and gives the stack
    back as it was. *)
Lemma undo_push (s : undo_stack) (t : transform) :
  undo (push (Some t) s) = (s, apply t).
Proof.
  unfold undo, push. simpl. rewrite pop_snoc. now destruct s.
Qed.

Lemma undo_empty (s : undo_stack) :
  history s = [] ->
  undo s =
    (s, emit (Warn (stack_printout s) (Some "No undo history available."))).
Proof.
  intros H. unfold undo. now rewrite H.
Qed.

(** C9. [makeInverse] returns null exactly when the op is noop; [push]
    appends a Transform to the history and does nothing with null; hence
    pushing the inverse of a noop Transform leaves the history as it was. *)
Theorem makeInverse_null_iff_noop (t inv : transform) (s : undo_stack) :
  (makeInverse t = Ok None <-> op t = Some noop)
  /\ history (push (Some inv) s) = history s ++ [inv]
  /\ push None s = s
  /\ (op t = Some noop ->
      exists r, makeInverse t = Ok r /\ history (push r s) = history s).
Proof.
  repeat split.
  - intros H. destruct (op t) as [[] |] eqn:E; trivial;
      exfalso; revert H; apply makeInverse_not_noop; rewrite E; discriminate.
  - apply makeInverse_noop.
  - intros H. exists None. split; [now apply makeInverse_noop | reflexivity].
Qed.

(** C5. On a new stack, after the pushes of [inv1], [inv2], [inv3] in that
    order, three calls of [undo] apply [inv3], then [inv2], then [inv1], and
    each takes one entry off the history; the fourth call finds the history
    empty: it sends "No undo history available." to the message sink and
    makes no call on any model. *)
Theorem undo_reverses_push_order (p : option nat) (inv1 inv2 inv3 : transform)
    (log : list event) :
  let s0 := UndoStack p in
  let s1 := push (Some inv1) s0 in
  let s2 := push (Some inv2) s1 in
  let s3 := push (Some inv3) s2 in
  let report := Warn (sink_or_console p) (Some "No undo history available.") in
  history s3 = [inv1; inv2; inv3]
  /\ undo s3 = (s2, apply inv3) /\ history s2 = [inv1; inv2]
  /\ undo s2 = (s1, apply inv2) /\ history s1 = [inv1]
  /\ undo s1 = (s0, apply inv1) /\ history s0 = []
  /\ undo s0 = (s0, emit report)
  /\ emit report log = (Ok tt, log ++ [report])
  /\ model_calls (log ++ [report]) = model_calls log.
Proof.
  intros s0 s1 s2 s3 report.
  repeat split; try apply undo_push. apply model_calls_warn.
Qed.

(** ** The constructor on the ops that it stores *)

Lemma Transform_translate (ax : option Axis) (amt : value) (m : Model)
    (p : option nat) :
  Transform (Some "translate") ax amt (Some m) p
  = Ok (set_amount amt (set_axis ax (set_op translate (started m p)))).
Proof. reflexivity. Qed.

Lemma Transform_rotate (ax : option Axis) (amt : value) (m : Model)
    (p : option nat) :
  Transform (Some "rotate") ax amt (Some m) p
  = Ok (set_amount amt (set_axis ax (set_op rotate (started m p)))).
Proof. reflexivity. Qed.

Lemma Transform_scale (ax : option Axis) (amt : value) (m : Model)
    (p : option nat) :
  all_positive amt ->
  Transform (Some "scale") ax amt (Some m) p
  = Ok (set_amount amt (set_axis ax (set_op scale (started m p)))).
Proof.
  intros H. unfold Transform. simpl. now rewrite (isBadScale_positive _ H).
Qed.

Lemma Transform_toggleWireframe (ax : option Axis) (amt : value) (m : Model)
    (p : option nat) :
  Transform (Some "toggleWireframe") ax amt (Some m) p
  = Ok (set_op toggleWireframe (started m p)).
Proof. reflexivity. Qed.

Lemma Transform_unset (ax : option Axis) (amt : value) (m : Model)
    (p : option nat) :
  Transform None ax amt (Some m) p = Ok (started m p).
Proof. reflexivity. Qed.

Lemma all_positive_reciprocal (amt : value) :
  all_positive amt ->
  componentwise recip amt = componentwise reciprocal amt
  /\ all_positive (componentwise reciprocal amt).
Proof.
  destruct amt as [| a | a0 a1 a2]; simpl; [contradiction | |].
  - intros H. rewrite (recip_reciprocal _ H).
    auto using reciprocal_positive.
  - intros (H0 & H1 & H2).
    rewrite (recip_reciprocal _ H0), (recip_reciprocal _ H1),
      (recip_reciprocal _ H2).
    auto using reciprocal_positive.
Qed.

(** The amount that [makeInverse] computes, on an amount that has the shape
    of the axis. *)
Lemma shaped_cases (ax : option Axis) (amt : value) :
  shaped ax amt ->
  (exists a, amt = Num a /\ is_all ax = false)
  \/ (exists a0 a1 a2, amt = Arr a0 a1 a2 /\ is_all ax = true).
Proof.
  destruct amt; simpl; [contradiction | |]; eauto 6.
Qed.

(** The call of the constructor that [makeInverse] makes, on an amount that
    has the shape of the axis. *)
Lemma makeInverse_shaped (t : transform) (k : Op) (m : Model) :
  op t = Some k ->
  k <> noop ->
  model t = Some m ->
  shaped (axis t) (amount t) ->
  makeInverse t =
    (inv <- Transform (Some (op_name k)) (axis t)
              (componentwise (if Op_eqb k scale then recip else neg) (amount t))
              (Some m) None ;;
     Ok (Some (set_inverse true inv)))%outcome.
Proof.
  intros Hop Hk Hm Hs. unfold makeInverse. rewrite Hop, Hm.
  apply shaped_cases in Hs.
  destruct Hs as [(a & -> & ->) | (a0 & a1 & a2 & -> & ->)];
    destruct k; try (now elim Hk); reflexivity.
Qed.

(** [makeInverse] is [makeInverse_with] at the exact reciprocal, and the
    division is only used for a scaling. *)
Lemma makeInverse_with_recip (t : transform) :
  makeInverse_with recip t = makeInverse t.
Proof. reflexivity. Qed.

Lemma makeInverse_with_not_scale (one_over : num -> num) (t : transform) :
  op t <> Some scale -> makeInverse_with one_over t = makeInverse t.
Proof.
  intros H. unfold makeInverse_with, makeInverse.
  destruct (op t) as [[] |]; trivial. now elim H.
Qed.

Lemma makeInverse_with_shaped (one_over : num -> num) (t : transform)
    (k : Op) (m : Model) :
  op t = Some k ->
  k <> noop ->
  model t = Some m ->
  shaped (axis t) (amount t) ->
  makeInverse_with one_over t =
    (inv <- Transform (Some (op_name k)) (axis t)
              (componentwise (if Op_eqb k scale then one_over else neg)
                 (amount t))
              (Some m) None ;;
     Ok (Some (set_inverse true inv)))%outcome.
Proof.
  intros Hop Hk Hm Hs. unfold makeInverse_with. rewrite Hop, Hm.
  apply shaped_cases in Hs.
  destruct Hs as [(a & -> & ->) | (a0 & a1 & a2 & -> & ->)];
    destruct k; try (now elim Hk); reflexivity.
Qed.

(** The validation accepts the quotients of strictly positive amounts, as
    soon as the quotient [1/x] of a strictly positive [x] is not [<= 0]. *)
Lemma isBadScale_quotients (one_over : num -> num) (amt : value) :
  (forall n, positive n -> le0 (one_over n) = false) ->
  all_positive amt ->
  isBadScale (componentwise one_over amt) = Ok false.
Proof.
  intros Q. destruct amt as [| n | a0 a1 a2]; simpl; [contradiction | |].
  - intros H. unfold isBadScale. simpl. now rewrite (Q _ H).
  - intros (H0 & H1 & H2). unfold isBadScale. simpl.
    now rewrite (Q _ H0), (Q _ H1), (Q _ H2).
Qed.

Lemma Transform_scale_accepted (ax : option Axis) (amt : value) (m : Model)
    (p : option nat) :
  isBadScale amt = Ok false ->
  Transform (Some "scale") ax amt (Some m) p
  = Ok (set_amount amt (set_axis ax (set_op scale (started m p)))).
Proof.
  intros H. unfold Transform. simpl. now rewrite H.
Qed.

(** The exact reciprocal of a strictly positive number is not [<= 0]. *)
Lemma recip_not_le0 (n : num) : positive n -> le0 (recip n) = false.
Proof.
  intros H. rewrite (recip_reciprocal _ H).
  apply positive_le0. now apply reciprocal_positive.
Qed.

(** C4, as amended.  On a Transform that has the invariants of the data
    model and whose op is not noop, [makeInverse] returns a Transform with
    the same op, the same axis and the same model, with the [inverse] flag
    set; its amount is the componentwise negation of the amount for a
    translation or a rotation, and for a scaling the componentwise quotient
    [1/a] as the division computes it.  This holds for every division that
    gives a strictly positive amount a quotient that is not [<= 0]: the
    exact reciprocal, and the division of doubles, whose quotient is then
    positive or [Infinity]. *)
Theorem makeInverse_of_data_model (one_over : num -> num) (t : transform) :
  (forall n, positive n -> le0 (one_over n) = false) ->
  well_formed t ->
  op t <> Some noop ->
  exists inv,
    makeInverse_with one_over t = Ok (Some inv)
    /\ op inv = op t
    /\ axis inv = axis t
    /\ model inv = model t
    /\ inverse inv = Some true
    /\ match op t with
       | Some translate | Some rotate =>
           amount inv = componentwise negation (amount t)
       | Some scale =>
           amount inv = componentwise one_over (amount t)
       | _ => True
       end.
Proof.
  unfold well_formed. intros Q W N.
  destruct (op t) as [[] |] eqn:Hop.
  - now elim N.
  - destruct W as (Hm & Hs). destruct (model t) as [m |] eqn:E; [| now elim Hm].
    rewrite (@makeInverse_with_shaped one_over t translate m); trivial;
      [| discriminate].
    rewrite Transform_translate. simpl. eexists. repeat split.
  - destruct W as (Hm & Hs). destruct (model t) as [m |] eqn:E; [| now elim Hm].
    rewrite (@makeInverse_with_shaped one_over t rotate m); trivial;
      [| discriminate].
    rewrite Transform_rotate. simpl. eexists. repeat split.
  - destruct W as (Hm & Hs & Hp).
    destruct (model t) as [m |] eqn:E; [| now elim Hm].
    rewrite (@makeInverse_with_shaped one_over t scale m); trivial;
      [| discriminate].
    cbn [Op_eqb op_name].
    rewrite Transform_scale_accepted by (now apply isBadScale_quotients).
    simpl. eexists. repeat split.
  - destruct W as (Hm & Hax).
    destruct (model t) as [m |] eqn:E; [| now elim Hm].
    unfold makeInverse_with. rewrite Hop, Hax, E. simpl.
    eexists. repeat split.
  - destruct W as (Hm & Hax).
    destruct (model t) as [m |] eqn:E; [| now elim Hm].
    unfold makeInverse_with. rewrite Hop, Hax, E. simpl.
    eexists. repeat split.
Qed.

(** The constructor establishes the invariants of the data model, on an
    amount that is finite and has the shape of the axis. *)
Lemma isBadScale_false (amt : value) :
  finite amt -> isBadScale amt = Ok false -> all_positive amt.
Proof.
  assert (P : forall q, le0 (Fin q) = false -> positive (Fin q)).
  { intros q H. simpl in *. apply Qcnot_le_lt. intros L.
    apply Qle_bool_iff in L. change (Qle_bool q 0%Q = true) in L.
    rewrite L in H. discriminate. }
  destruct amt as [| [q | | |] | [q0 | | |] [q1 | | |] [q2 | | |]];
    simpl; try contradiction; intros _; unfold isBadScale; simpl.
  - destruct (Qle_bool q 0) eqn:E; [discriminate |]. intros _. now apply P.
  - intros H. injection H as H.
    apply orb_false_elim in H. destruct H as (H & H2).
    apply orb_false_elim in H. destruct H as (H0 & H1).
    repeat split; now apply P.
Qed.

(** X18. The constructor establishes the invariants of the data model:
    from an amount that is finite and has the shape of the axis, whatever
    the op, the model and the sink, the Transform it returns has a model
    unless it is a noop, an amount of the shape of its axis if it
    translates, rotates or scales, a strictly positive amount if it scales,
    and no axis if it toggles the wireframe or has no op. *)
Lemma Transform_well_formed (o : option string) (ax : option Axis)
    (amt : value) (md : option Model) (p : option nat) (t : transform) :
  shaped ax amt ->
  finite amt ->
  Transform o ax amt md p = Ok t ->
  well_formed t.
Proof.
  intros Hs Hf. destruct md as [m |]; [| intros [= <-]; exact I].
  unfold Transform.
  destruct (is_case o "floor").
  { destruct (is_all ax) eqn:E; intros [= <-]; split; try discriminate; exact E. }
  destruct (is_case o "center").
  { destruct (is_all ax) eqn:E.
    - intros [= <-]; split; try discriminate; exact E.
    - destruct (getCenter_of m ax); simpl; [| discriminate].
      intros [= <-]; split; try discriminate; exact E. }
  destruct (is_case o "translate").
  { intros [= <-]; split; try discriminate; exact Hs. }
  destruct (is_case o "rotate").
  { intros [= <-]; split; try discriminate; exact Hs. }
  destruct (is_case o "scale").
  { destruct (isBadScale amt) as [[|] |] eqn:E; simpl; try discriminate.
    - intros [= <-]; exact I.
    - intros [= <-]. repeat split; try discriminate; trivial.
      now apply isBadScale_false. }
  destruct (is_case o "toggleWireframe");
    intros [= <-]; split; try discriminate; reflexivity.
Qed.

(** ** Scaling and its inverse *)

Lemma makeInverse_scale (ax : option Axis) (amt : value) (m : Model)
    (p : option nat) :
  shaped ax amt ->
  all_positive amt ->
  makeInverse (set_amount amt (set_axis ax (set_op scale (started m p))))
  = Ok (Some (set_inverse true
               (set_amount (componentwise reciprocal amt)
                  (set_axis ax (set_op scale (started m None)))))).
Proof.
  intros Hs Hp.
  rewrite (@makeInverse_shaped _ scale m); trivial; try discriminate.
  cbn [Op_eqb op_name]. simpl (amount _). simpl (axis _).
  destruct (all_positive_reciprocal _ Hp) as (-> & Hp').
  now rewrite Transform_scale by exact Hp'.
Qed.

Lemma scale_state_app (m : nat) (s0 : scales) (l1 l2 : list event) :
  scale_state m s0 (l1 ++ l2) = scale_state m (scale_state m s0 l1) l2.
Proof. apply fold_left_app. Qed.

Lemma scale_axis_undo (ax : Axis) (a : Qc) (s : scales) :
  (0 < a)%Qc -> scale_axis ax (/ a) (scale_axis ax a s) = s.
Proof.
  intros H. apply positive_nonzero in H.
  destruct ax, s; simpl; f_equal; now field.
Qed.

Lemma scale_axes_undo (a : Qc) (s : scales) :
  (0 < a)%Qc ->
  scale_axis axZ (/ a) (scale_axis axY (/ a) (scale_axis axX (/ a)
    (scale_axis axZ a (scale_axis axY a (scale_axis axX a s))))) = s.
Proof.
  intros H. apply positive_nonzero in H.
  destruct s; simpl; f_equal; now field.
Qed.

(** The forward Transform does change the factor: scaling one axis by [a]
    multiplies the factor of that axis of its model by [a]. *)
Lemma scale_forward_effect (ax : Axis) (a : Qc) (m : Model) (p : option nat)
    (log : list event) (s0 : scales) :
  is_all (Some ax) = false ->
  let t := set_amount (Num (Fin a))
             (set_axis (Some ax) (set_op scale (started m p))) in
  exists log1,
    apply t log = (Ok tt, log1)
    /\ scale_state (ident m) s0 log1
       = scale_axis ax a (scale_state (ident m) s0 log).
Proof.
  intros H t. subst t.
  destruct ax; try discriminate H; eexists;
    (split; [run_apply |]);
    rewrite scale_state_app; simpl; now rewrite Nat.eqb_refl.
Qed.

(** C2. A scale Transform with a strictly positive amount (one number for
    an axis, three for "all"), applied and followed by the Transform that
    [makeInverse] returns, leaves the scale factors of every model as they
    were before: each factor is multiplied by [a] and then by [1/a]. *)
Theorem scale_then_inverse_restores (ax : Axis) (amt : value) (m : Model)
    (p : option nat) (log : list event) (m' : nat) (s0 : scales) :
  shaped (Some ax) amt ->
  all_positive amt ->
  exists t inv log1 log2,
    Transform (Some "scale") (Some ax) amt (Some m) p = Ok t
    /\ op t = Some scale
    /\ makeInverse t = Ok (Some inv)
    /\ apply t log = (Ok tt, log1)
    /\ apply inv log1 = (Ok tt, log2)
    /\ scale_state m' s0 log2 = scale_state m' s0 log.
Proof.
  intros Hs Hp.
  exists (set_amount amt (set_axis (Some ax) (set_op scale (started m p)))).
  exists (set_inverse true
            (set_amount (componentwise reciprocal amt)
               (set_axis (Some ax) (set_op scale (started m None))))).
  rewrite Transform_scale by exact Hp.
  rewrite makeInverse_scale by assumption.
  destruct amt as [| [a | | |] | [a0 | | |] [a1 | | |] [a2 | | |]];
    simpl in Hp; try tauto;
    destruct ax; simpl in Hs; try discriminate;
    do 2 eexists; (split; [reflexivity |]); (split; [reflexivity |]);
    (split; [reflexivity |]); (split; [reflexivity |]);
    (split; [reflexivity |]);
    rewrite !scale_state_app; simpl;
    destruct (Nat.eqb (ident m) m'); trivial.
  - exact (@scale_axis_undo axX a (scale_state m' s0 log) Hp).
  - exact (@scale_axis_undo axY a (scale_state m' s0 log) Hp).
  - exact (@scale_axis_undo axZ a (scale_state m' s0 log) Hp).
  - exact (@scale_axes_undo a0 (scale_state m' s0 log) (proj1 Hp)).
Qed.

(** ** Rotation on all axes and its inverse *)

(** The calls of a rotation on "all" and of the Transform that [makeInverse]
    returns for it: the inverse visits z, y, x, and passes its amounts in the
    order in which they are stored, so that z receives [-rx] and x receives
    [-rz]. *)
Lemma rotate_all_replay (rx ry rz : num) (m : Model) (p : option nat)
    (log log' : list event) :
  exists t inv,
    Transform (Some "rotate") (Some axAll) (Arr rx ry rz) (Some m) p = Ok t
    /\ makeInverse t = Ok (Some inv)
    /\ amount inv = Arr (negation rx) (negation ry) (negation rz)
    /\ inverse inv = Some true
    /\ apply t log =
         (Ok tt, log ++ [ModelRotate (ident m) (Some axX) (Num rx);
                         ModelRotate (ident m) (Some axY) (Num ry);
                         ModelRotate (ident m) (Some axZ) (Num rz)])
    /\ apply inv log' =
         (Ok tt, log' ++ [ModelRotate (ident m) (Some axZ) (Num (negation rx));
                          ModelRotate (ident m) (Some axY) (Num (negation ry));
                          ModelRotate (ident m) (Some axX) (Num (negation rz))]).
Proof.
  do 2 eexists. split; [reflexivity |]. split; [reflexivity |].
  simpl. repeat rewrite neg_negation. repeat split; run_apply.
Qed.

(** Quarter turns: a rotation by [-k] undoes the rotation by [k] about the
    same axis. *)
Lemma turns_opp (ax : Axis) (k : Z) (v : vec) :
  turns ax (- k) (turns ax k v) = v.
Proof.
  unfold turns.
  assert (B : (0 <= k mod 4 < 4)%Z) by (apply Z.mod_pos_bound; lia).
  assert (E : ((- k) mod 4 = (4 - k mod 4) mod 4)%Z).
  { rewrite Zminus_mod_idemp_r.
    replace (4 - k)%Z with (- k + 1 * 4)%Z by lia. now rewrite Z_mod_plus_full. }
  rewrite E.
  assert (C : (k mod 4 = 0 \/ k mod 4 = 1 \/ k mod 4 = 2 \/ k mod 4 = 3)%Z)
    by lia.
  destruct v as [[x y] z].
  destruct C as [-> | [-> | [-> | ->]]]; destruct ax; simpl;
    rewrite ?Z.opp_involutive; reflexivity.
Qed.

Lemma rotate_frame_opp (ax : Axis) (k : Z) (f : frame) :
  rotate_frame ax (- k) (rotate_frame ax k f) = f.
Proof.
  destruct f as [[e1 e2] e3]. simpl. now rewrite !turns_opp.
Qed.

Lemma Qred_inject_Z (k : Z) : Qred (inject_Z k) = inject_Z k.
Proof.
  apply Qred_identity. simpl. apply Z.gcd_1_r.
Qed.

Lemma orientation_step_int (m : nat) (ax : Axis) (k : Z) (f : frame) :
  orientation_step m f (ModelRotate m (Some ax) (Num (integer k)))
  = rotate_frame ax k f.
Proof.
  unfold orientation_step, integer, Q2Qc. cbn [this].
  rewrite Qred_inject_Z. simpl. now rewrite Nat.eqb_refl.
Qed.

Lemma orientation_app (m : nat) (f0 : frame) (l1 l2 : list event) :
  orientation m f0 (l1 ++ l2) = orientation m (orientation m f0 l1) l2.
Proof. apply fold_left_app. Qed.

(** In the quarter-turn model the replay that the specification describes
    (z by [-rz], then y by [-ry], then x by [-rx]) does restore the
    orientation, whatever the three amounts. *)
Lemma specified_replay_restores (m : nat) (kx ky kz : Z) (f0 : frame)
    (log : list event) :
  orientation m f0
    (log ++ [ModelRotate m (Some axX) (Num (integer kx));
             ModelRotate m (Some axY) (Num (integer ky));
             ModelRotate m (Some axZ) (Num (integer kz))]
         ++ [ModelRotate m (Some axZ) (Num (integer (- kz)));
             ModelRotate m (Some axY) (Num (integer (- ky)));
             ModelRotate m (Some axX) (Num (integer (- kx)))])
  = orientation m f0 log.
Proof.
  rewrite !orientation_app. generalize (orientation m f0 log). intros f.
  unfold orientation. cbn [fold_left].
  rewrite !orientation_step_int.
  now rewrite !rotate_frame_opp.
Qed.

(** C1, on the code.  The rotation on "all" by one quarter turn about x
    (amounts [(1, 0, 0)]) followed by the Transform that [makeInverse]
    returns: the inverse calls z with [-1], y with [0], x with [0], where the
    specification has z with [0], y with [0], x with [-1]; in the
    quarter-turn model the orientation after the two is not the upright one
    the model started from, while the replay of the specification would
    have restored it. *)
Theorem rotate_all_inverse_pairs_z_with_rx :
  let forward := [ModelRotate 1 (Some axX) (Num (integer 1));
                  ModelRotate 1 (Some axY) (Num (integer 0));
                  ModelRotate 1 (Some axZ) (Num (integer 0))] in
  let replayed := [ModelRotate 1 (Some axZ) (Num (integer (-1)));
                   ModelRotate 1 (Some axY) (Num (integer 0));
                   ModelRotate 1 (Some axX) (Num (integer 0))] in
  let specified := [ModelRotate 1 (Some axZ) (Num (integer 0));
                    ModelRotate 1 (Some axY) (Num (integer 0));
                    ModelRotate 1 (Some axX) (Num (integer (-1)))] in
  exists t inv,
    Transform (Some "rotate") (Some axAll)
      (Arr (integer 1) (integer 0) (integer 0)) (Some sample_model) None
    = Ok t
    /\ makeInverse t = Ok (Some inv)
    /\ apply t [] = (Ok tt, forward)
    /\ apply inv forward = (Ok tt, forward ++ replayed)
    /\ replayed <> specified
    /\ orientation 1 upright (forward ++ replayed) <> upright
    /\ orientation 1 upright (forward ++ specified) = upright.
Proof.
  intros forward replayed specified.
  do 2 eexists. split; [reflexivity |]. split; [reflexivity |].
  split; [reflexivity |]. split; [reflexivity |].
  split; [discriminate |]. split; [discriminate | reflexivity].
Qed.

(** The replay of the code is the replay of the specification exactly when
    the amounts about x and about z are the same. *)
Lemma replay_is_specified_iff (m : nat) (rx ry rz : num) :
  [ModelRotate m (Some axZ) (Num (negation rx));
   ModelRotate m (Some axY) (Num (negation ry));
   ModelRotate m (Some axX) (Num (negation rz))]
  = [ModelRotate m (Some axZ) (Num (negation rz));
     ModelRotate m (Some axY) (Num (negation ry));
     ModelRotate m (Some axX) (Num (negation rx))]
  <-> negation rx = negation rz.
Proof.
  split.
  - intros H. now injection H.
  - intros H. now rewrite H.
Qed.

(** ** The other operations of the stack *)

Lemma undo_after_clear (s : undo_stack) :
  undo (clear s) =
    (clear s,
     emit (Warn (stack_printout s) (Some "No undo history available."))).
Proof. reflexivity. Qed.

Lemma undo_new (p : option nat) :
  undo (UndoStack p) =
    (UndoStack p,
     emit (Warn (sink_or_console p) (Some "No undo history available."))).
Proof. reflexivity. Qed.

(** ** Outside the data model

    What the code does on arguments that the data model excludes; none of
    the results above covers them. *)

(** The amount [Infinity] passes the validation of a scale amount; its
    reciprocal is 0, which the constructor rejects: the inverse is a noop. *)
Lemma scale_by_infinity_has_noop_inverse (m : Model) (p : option nat) :
  exists t inv,
    Transform (Some "scale") (Some axX) (Num PInf) (Some m) p = Ok t
    /\ op t = Some scale
    /\ makeInverse t = Ok (Some inv)
    /\ op inv = Some noop.
Proof.
  do 2 eexists. repeat split; reflexivity.
Qed.

(** A single number on the axis "all": every component read from it is
    [undefined], so the model is called with [undefined] and the amount of
    the inverse is a triple of [NaN]. *)
Lemma number_on_all_axes (a : num) (m : Model) (p : option nat)
    (log : list event) :
  exists t inv,
    Transform (Some "translate") (Some axAll) (Num a) (Some m) p = Ok t
    /\ apply t log =
         (Ok tt, log ++ [ModelTranslate (ident m) (Some axX) Undef;
                         ModelTranslate (ident m) (Some axY) Undef;
                         ModelTranslate (ident m) (Some axZ) Undef])
    /\ makeInverse t = Ok (Some inv)
    /\ amount inv = Arr NaN NaN NaN.
Proof.
  do 2 eexists. split; [reflexivity |]. split; [run_apply |].
  split; reflexivity.
Qed.

(** No amount at all on the axis "all": [makeInverse] and [apply] raise. *)
Lemma absent_amount_on_all_axes (m : Model) (p : option nat)
    (log : list event) :
  exists t,
    Transform (Some "translate") (Some axAll) Undef (Some m) p = Ok t
    /\ makeInverse t = TypeError
    /\ apply t log = (TypeError, log).
Proof.
  eexists. repeat split; reflexivity.
Qed.

(** No amount for a scaling: the constructor raises. *)
Lemma scale_without_amount_raises (ax : option Axis) (m : Model)
    (p : option nat) :
  Transform (Some "scale") ax Undef (Some m) p = TypeError.
Proof. reflexivity. Qed.

(** * Further properties of the code *)

(** ** The constructor: centre, errors, validation *)

(** X1. A centre Transform is a translation by the negated centre of the
    model, along one axis or as the triple for "all"; without an axis the
    centre query is a call of a method that the model does not have, and the
    constructor raises, where floor only produces the amount [NaN]. *)
Theorem center_negates_centre (ax : Axis) (amt : value) (m : Model)
    (p : option nat) :
  (exists t,
      Transform (Some "center") (Some ax) amt (Some m) p = Ok t
      /\ op t = Some translate
      /\ axis t = Some ax
      /\ model t = Some m
      /\ amount t = negated_centre m ax)
  /\ Transform (Some "center") None amt (Some m) p = TypeError
  /\ (exists t,
      Transform (Some "floor") None amt (Some m) p = Ok t
      /\ op t = Some translate
      /\ amount t = Num NaN).
Proof.
  split; [| split].
  - destruct ax; eexists; (split; [reflexivity |]); simpl;
      rewrite ?neg_negation; auto.
  - reflexivity.
  - eexists. split; [reflexivity |]. split; reflexivity.
Qed.

Lemma is_case_true (o : option string) (s : string) :
  is_case o s = true <-> o = Some s.
Proof.
  destruct o as [x |]; simpl.
  - rewrite String.eqb_eq. split; [now intros -> | now intros [= ->]].
  - split; discriminate.
Qed.

(** X2. The constructor raises in two cases only, both with a model: the op
    "center" without an axis, and the op "scale" with the amount
    [undefined]. *)
Theorem Transform_raises_iff (o : option string) (ax : option Axis)
    (amt : value) (md : option Model) (p : option nat) :
  Transform o ax amt md p = TypeError
  <-> md <> None
      /\ ((o = Some "center" /\ ax = None)
          \/ (o = Some "scale" /\ amt = Undef)).
Proof.
  destruct md as [m |]; [| split; [discriminate | now intros [[] _]]].
  unfold Transform.
  destruct (is_case o "floor") eqn:E1.
  { apply is_case_true in E1. subst o.
    split; [destruct (is_all ax); discriminate |].
    intros (_ & [(H & _) | (H & _)]); discriminate. }
  destruct (is_case o "center") eqn:E2.
  { apply is_case_true in E2. subst o.
    destruct ax as [[] |]; simpl; split; try discriminate; try reflexivity;
      try (intros (_ & [(_ & H) | (H & _)]); discriminate).
    intros _. split; [discriminate | now left]. }
  destruct (is_case o "translate") eqn:E3.
  { apply is_case_true in E3. subst o. split; [discriminate |].
    intros (_ & [(H & _) | (H & _)]); discriminate. }
  destruct (is_case o "rotate") eqn:E4.
  { apply is_case_true in E4. subst o. split; [discriminate |].
    intros (_ & [(H & _) | (H & _)]); discriminate. }
  destruct (is_case o "scale") eqn:E5.
  { apply is_case_true in E5. subst o.
    destruct amt as [| n | a0 a1 a2]; unfold isBadScale; simpl.
    - split; [intros _ | reflexivity]. split; [discriminate | now right].
    - split; [destruct (le0 n); discriminate |].
      intros (_ & [(H & _) | (_ & H)]); discriminate.
    - split; [destruct (le0 a0 || le0 a1 || le0 a2); discriminate |].
      intros (_ & [(H & _) | (_ & H)]); discriminate. }
  split.
  - destruct (is_case o "toggleWireframe"); discriminate.
  - intros (_ & [(H & _) | (H & _)]); subst o; discriminate.
Qed.

Lemma positive_or_nonpositive (q : Qc) :
  positive (Fin q) \/ nonpositive (Fin q).
Proof.
  simpl. destruct (Qclt_le_dec 0 q); auto.
Qed.

(** X3. On a finite amount the validation of "scale" is exact, and it does
    not look at the axis: the amount is stored, with op scale, when every
    component is strictly positive, and the Transform is a noop when some
    component is zero or negative. *)
Theorem scale_validation_is_exact (ax : option Axis) (amt : value) (m : Model)
    (p : option nat) :
  finite amt ->
  exists t,
    Transform (Some "scale") ax amt (Some m) p = Ok t
    /\ ((all_positive amt
         /\ op t = Some scale /\ axis t = ax /\ amount t = amt)
        \/ (some_nonpositive amt
            /\ op t = Some noop /\ axis t = None /\ amount t = Undef)).
Proof.
  intros F.
  assert (D : all_positive amt \/ some_nonpositive amt).
  { destruct amt as [| [q | | |] | [q0 | | |] [q1 | | |] [q2 | | |]];
      simpl in F; try contradiction.
    - apply positive_or_nonpositive.
    - destruct (positive_or_nonpositive q0), (positive_or_nonpositive q1),
        (positive_or_nonpositive q2); simpl; tauto. }
  destruct D as [P | N].
  - rewrite Transform_scale by exact P. eexists. split; [reflexivity |].
    left. auto.
  - unfold Transform. simpl. rewrite (isBadScale_nonpositive _ N). simpl.
    eexists. split; [reflexivity |]. right. auto.
Qed.

Lemma Transform_printout (o : option string) (ax : option Axis) (amt : value)
    (md : option Model) (p : option nat) (t : transform) :
  Transform o ax amt md p = Ok t -> printout t = sink_or_console p.
Proof.
  destruct md as [m |]; [| now intros [= <-]].
  unfold Transform.
  destruct (is_case o "floor").
  { destruct (is_all ax); now intros [= <-]. }
  destruct (is_case o "center").
  { destruct (is_all ax); [now intros [= <-] |].
    destruct (getCenter_of m ax); simpl; [now intros [= <-] | discriminate]. }
  destruct (is_case o "translate"); [now intros [= <-] |].
  destruct (is_case o "rotate"); [now intros [= <-] |].
  destruct (is_case o "scale").
  { destruct (isBadScale amt) as [[|] |]; simpl;
      [now intros [= <-] | now intros [= <-] | discriminate]. }
  destruct (is_case o "toggleWireframe"); now intros [= <-].
Qed.

Lemma obind_Some_inv {A B : Type} (e : outcome A) (f : A -> outcome B)
    (g : B -> B) (r : B) :
  obind e (fun a => obind (f a) (fun b => Ok (Some (g b)))) = Ok (Some r) ->
  exists a b, e = Ok a /\ f a = Ok b /\ r = g b.
Proof.
  destruct e as [a |]; simpl; [| discriminate].
  destruct (f a) as [b |] eqn:E; simpl; [| discriminate].
  intros [= <-]. eauto.
Qed.

(** X4. [makeInverse] calls the constructor without a message sink: the
    inverse reports to the console, whatever sink the Transform had, and it
    has its [inverse] flag set. *)
Theorem inverse_reports_to_console (t inv : transform) :
  makeInverse t = Ok (Some inv) ->
  printout inv = console /\ inverse inv = Some true.
Proof.
  unfold makeInverse. destruct (op_is (op t) noop); [discriminate |].
  intros H. apply obind_Some_inv in H. destruct H as (a & b & _ & H & ->).
  apply Transform_printout in H. simpl. now rewrite H.
Qed.

(** ** apply: what it calls, and what it never does *)

(** [apply] reads the op, the axis, the amount, the model and the truth of
    the inverse flag of a Transform, and for a noop its sink and reason. *)
Lemma apply_eq (t t' : transform) :
  op t = op t' -> axis t = axis t' -> amount t = amount t' ->
  model t = model t' -> inverse_truthy t = inverse_truthy t' ->
  printout t = printout t' -> reason t = reason t' ->
  apply t = apply t'.
Proof.
  intros H1 H2 H3 H4 H5 H6 H7.
  unfold apply, call_model, the_model.
  now rewrite H1, H2, H3, H4, H5, H6, H7.
Qed.

(** X5. [apply] makes only the calls that belong to its Transform: calls of
    the primitive of its op, on its own model, and no warning, unless the
    Transform is a noop, which only warns, with its reason, on its own sink.
    This holds also when [apply] raises. *)
Theorem apply_makes_only_own_calls (t : transform) (log : list event) :
  exists evs,
    snd (apply t log) = log ++ evs /\ Forall (own_event t) evs.
Proof.
  unfold apply, call_model, the_model, bind, lift, emit, ret.
  destruct (op t) as [[] |] eqn:Hop; destruct (is_all (axis t));
    destruct (model t) as [md |] eqn:Hm; destruct (amount t); simpl;
    rewrite <- ?app_assoc;
    (eexists; split; [first [reflexivity | symmetry; apply app_nil_r] |]);
    repeat constructor; unfold on_model_of; try rewrite Hop; eauto.
Qed.

(** X6. On a Transform of the data model [apply] does not raise, and it
    makes one call for a single axis, three for "all", one warning for a
    noop, one call for a wireframe toggle and none when the op is unset. *)
Theorem apply_of_well_formed (t : transform) (log : list event) :
  well_formed t ->
  exists evs,
    apply t log = (Ok tt, log ++ evs) /\ List.length evs = call_count t.
Proof.
  unfold well_formed, call_count, apply, call_model, the_model, bind, lift,
    emit, ret.
  destruct (op t) as [[] |] eqn:Hop.
  - intros _. eexists. split; reflexivity.
  - intros (Hm & Hs). destruct (model t) as [m |]; [| now elim Hm].
    apply shaped_cases in Hs.
    destruct Hs as [(a & -> & ->) | (a0 & a1 & a2 & -> & ->)]; simpl;
      rewrite <- ?app_assoc; eexists; split; reflexivity.
  - intros (Hm & Hs). destruct (model t) as [m |]; [| now elim Hm].
    apply shaped_cases in Hs.
    destruct Hs as [(a & -> & ->) | (a0 & a1 & a2 & -> & ->)]; simpl;
      rewrite <- ?app_assoc; eexists; split; reflexivity.
  - intros (Hm & Hs & _). destruct (model t) as [m |]; [| now elim Hm].
    apply shaped_cases in Hs.
    destruct Hs as [(a & -> & ->) | (a0 & a1 & a2 & -> & ->)]; simpl;
      rewrite <- ?app_assoc; eexists; split; reflexivity.
  - intros (Hm & _). destruct (model t) as [m |]; [| now elim Hm].
    eexists. split; reflexivity.
  - intros _. exists []. split; [now rewrite app_nil_r | reflexivity].
Qed.

(** X7. A translation on "all" passes each component of its triple to the
    axis it belongs to (x with [a0], y with [a1], z with [a2]), and a forward
    rotation on "all" does the same, in the order x, y, z. *)
Theorem translate_rotate_all_use_each_component (t : transform)
    (a0 a1 a2 : num) (m : Model) (log : list event) :
  axis t = Some axAll ->
  amount t = Arr a0 a1 a2 ->
  model t = Some m ->
  inverse_truthy t = false ->
  (op t = Some translate ->
   apply t log =
     (Ok tt, log ++ [ModelTranslate (ident m) (Some axX) (Num a0);
                     ModelTranslate (ident m) (Some axY) (Num a1);
                     ModelTranslate (ident m) (Some axZ) (Num a2)]))
  /\ (op t = Some rotate ->
      apply t log =
        (Ok tt, log ++ [ModelRotate (ident m) (Some axX) (Num a0);
                        ModelRotate (ident m) (Some axY) (Num a1);
                        ModelRotate (ident m) (Some axZ) (Num a2)])).
Proof.
  intros Hax Ham Hm Hinv.
  split; intros Hop; unfold apply; rewrite Hop, Hax, Ham, ?Hinv; simpl;
    unfold bind; rewrite !(call_model_Ok _ _ _ _ _ Hm);
    now rewrite <- !app_assoc.
Qed.

(** ** Inverses that restore the model *)

(** The inverse of a translation or rotation of the data model. *)
Lemma makeInverse_additive (t : transform) (k : Op) (m : Model) :
  k = translate \/ k = rotate ->
  op t = Some k ->
  model t = Some m ->
  shaped (axis t) (amount t) ->
  makeInverse t =
    Ok (Some (set_inverse true
                (set_amount (componentwise neg (amount t))
                   (set_axis (axis t) (set_op k (started m None)))))).
Proof.
  intros Hk Hop Hm Hs.
  rewrite (@makeInverse_shaped t k m); trivial.
  - destruct Hk as [-> | ->]; reflexivity.
  - destruct Hk as [-> | ->]; discriminate.
Qed.

Lemma position_state_app (m : nat) (s0 : position) (l1 l2 : list event) :
  position_state m s0 (l1 ++ l2)
  = position_state m (position_state m s0 l1) l2.
Proof. apply fold_left_app. Qed.

Lemma translate_axis_undo (ax : Axis) (a : Qc) (s : position) :
  translate_axis ax (Q2Qc (-1)%Q * a)%Qc (translate_axis ax a s) = s.
Proof.
  change (Q2Qc (-1)%Q * a)%Qc with (- a)%Qc.
  destruct ax, s; simpl; f_equal; ring.
Qed.

Lemma translate_axes_undo (a0 a1 a2 : Qc) (s : position) :
  translate_axis axZ (Q2Qc (-1)%Q * a2)%Qc
    (translate_axis axY (Q2Qc (-1)%Q * a1)%Qc
       (translate_axis axX (Q2Qc (-1)%Q * a0)%Qc
          (translate_axis axZ a2
             (translate_axis axY a1 (translate_axis axX a0 s))))) = s.
Proof.
  change (Q2Qc (-1)%Q * a0)%Qc with (- a0)%Qc.
  change (Q2Qc (-1)%Q * a1)%Qc with (- a1)%Qc.
  change (Q2Qc (-1)%Q * a2)%Qc with (- a2)%Qc.
  destruct s; simpl; f_equal; ring.
Qed.

(** X8. A translation of the data model with a finite amount (built from
    "translate", "floor" or "center"), applied, its inverse pushed and then
    undone: the stack is as it was before the push, and the position of
    every model is as it was before the translation. *)
Theorem translate_then_undo_restores (t : transform) (s : undo_stack)
    (log : list event) (m' : nat) (s0 : position) :
  well_formed t ->
  op t = Some translate ->
  finite (amount t) ->
  exists inv log1 log2,
    makeInverse t = Ok (Some inv)
    /\ apply t log = (Ok tt, log1)
    /\ undo (push (Some inv) s) = (s, apply inv)
    /\ apply inv log1 = (Ok tt, log2)
    /\ position_state m' s0 log2 = position_state m' s0 log.
Proof.
  intros W Hop F. unfold well_formed in W. rewrite Hop in W.
  destruct W as (Hm & Hs). destruct (model t) as [m |] eqn:Em; [| now elim Hm].
  rewrite (@makeInverse_additive t translate m); auto.
  apply shaped_cases in Hs.
  destruct Hs as [(a & Ha & Hall) | (a0 & a1 & a2 & Ha & Hall)];
    rewrite Ha in F.
  - destruct a as [a | | |]; try contradiction.
    do 3 eexists. split; [reflexivity |]. rewrite undo_push.
    unfold apply. rewrite Hop. simpl. rewrite Hall.
    rewrite (call_model_Ok _ _ _ _ _ Em).
    split; [reflexivity |]. split; [reflexivity |].
    split; [run_apply |].
    rewrite !position_state_app, Ha. simpl.
    destruct (axis t) as [ax |]; trivial.
    destruct (Nat.eqb (ident m) m'); trivial.
    apply translate_axis_undo.
  - destruct a0 as [a0 | | |], a1 as [a1 | | |], a2 as [a2 | | |];
      try contradiction.
    do 3 eexists. split; [reflexivity |]. rewrite undo_push.
    unfold apply. rewrite Hop. simpl. rewrite Hall, Ha. simpl. unfold bind.
    rewrite !(call_model_Ok _ _ _ _ _ Em).
    split; [reflexivity |]. split; [reflexivity |].
    split; [run_apply |].
    rewrite !position_state_app. simpl.
    destruct (Nat.eqb (ident m) m'); trivial.
    apply translate_axes_undo.
Qed.

Lemma negation_integer (k : Z) : negation (integer k) = integer (- k).
Proof.
  unfold negation, integer. f_equal. apply Qc_is_canon.
  unfold Qcopp, Q2Qc. cbn [this]. rewrite !Qred_correct. reflexivity.
Qed.

Lemma neg_integer (k : Z) :
  Fin (Q2Qc (-1)%Q * Q2Qc (inject_Z k))%Qc = integer (- k).
Proof.
  change (neg (integer k) = integer (- k)).
  now rewrite neg_negation, negation_integer.
Qed.

Lemma orientation_step_integer (m' m : nat) (ax : Axis) (k : Z) (f : frame) :
  orientation_step m' f (ModelRotate m (Some ax) (Num (integer k)))
  = if Nat.eqb m m' then rotate_frame ax k f else f.
Proof.
  unfold orientation_step, integer, Q2Qc. cbn [this].
  rewrite Qred_inject_Z. simpl. now destruct (Nat.eqb m m').
Qed.

(** X9. A rotation by whole quarter turns about one axis, or on "all" with
    the same amount about x and about z, followed by its inverse, leaves the
    orientation of every model as it was (in the quarter-turn model): these
    are the rotations for which the inverse replays the right amounts. *)
Theorem rotate_then_inverse_restores_when_x_is_z (ax : Axis) (k ky : Z)
    (m : Model) (p : option nat) (log : list event) (m' : nat) (f0 : frame) :
  let amt := match ax with
             | axAll => Arr (integer k) (integer ky) (integer k)
             | _ => Num (integer k)
             end in
  exists t inv log1 log2,
    Transform (Some "rotate") (Some ax) amt (Some m) p = Ok t
    /\ makeInverse t = Ok (Some inv)
    /\ apply t log = (Ok tt, log1)
    /\ apply inv log1 = (Ok tt, log2)
    /\ orientation m' f0 log2 = orientation m' f0 log.
Proof.
  intros amt. subst amt.
  destruct ax; do 4 eexists;
    (split; [reflexivity |]); (split; [reflexivity |]);
    (split; [run_apply |]); (split; [run_apply |]);
    rewrite !orientation_app; generalize (orientation m' f0 log); intros f;
    unfold orientation; cbn [fold_left];
    rewrite !neg_integer; rewrite !orientation_step_integer;
    destruct (Nat.eqb (ident m) m'); trivial;
    now rewrite !rotate_frame_opp.
Qed.

Lemma wireframe_state_app (m : nat) (b0 : bool) (l1 l2 : list event) :
  wireframe_state m b0 (l1 ++ l2)
  = wireframe_state m (wireframe_state m b0 l1) l2.
Proof. apply fold_left_app. Qed.

(** X10. The inverse of a wireframe toggle is a wireframe toggle of the same
    model, whatever axis and amount the constructor was given; each of the
    two makes one call, and after both the wireframe flag of every model is
    as it was. *)
Theorem toggleWireframe_is_its_own_inverse (ax : option Axis) (amt : value)
    (m : Model) (p : option nat) (log : list event) (m' : nat) (b0 : bool) :
  exists t inv,
    Transform (Some "toggleWireframe") ax amt (Some m) p = Ok t
    /\ axis t = None /\ amount t = Undef
    /\ makeInverse t = Ok (Some inv)
    /\ op inv = Some toggleWireframe
    /\ model inv = Some m
    /\ apply t log = (Ok tt, log ++ [ModelToggleWireframe (ident m)])
    /\ apply inv (log ++ [ModelToggleWireframe (ident m)])
       = (Ok tt, log ++ [ModelToggleWireframe (ident m);
                         ModelToggleWireframe (ident m)])
    /\ wireframe_state m' b0
         (log ++ [ModelToggleWireframe (ident m);
                  ModelToggleWireframe (ident m)])
       = wireframe_state m' b0 log.
Proof.
  do 2 eexists. split; [reflexivity |]. split; [reflexivity |].
  split; [reflexivity |]. split; [reflexivity |]. split; [reflexivity |].
  split; [reflexivity |]. split; [run_apply |]. split; [run_apply |].
  rewrite wireframe_state_app. simpl.
  destruct (Nat.eqb (ident m) m'); trivial. apply negb_involutive.
Qed.

(** ** The inverse as a Transform of its own *)

Lemma shaped_componentwise (f : num -> num) (ax : option Axis) (amt : value) :
  shaped ax amt -> shaped ax (componentwise f amt).
Proof. now destruct amt. Qed.

(** X11. [makeInverse] keeps the invariants of the data model on every
    Transform that does not scale (the negation of an amount is exact, and
    the division is not used): the inverse of a translation, a rotation or
    a wireframe toggle that has them has them too, so that it can be applied
    and inverted in its turn.  (For a scaling the amount of the inverse is
    the quotient [1/a] of the machine, which can be [Infinity].) *)
Theorem makeInverse_keeps_well_formed (one_over : num -> num)
    (t inv : transform) :
  well_formed t ->
  op t <> Some scale ->
  makeInverse_with one_over t = Ok (Some inv) ->
  well_formed inv.
Proof.
  intros W S. rewrite makeInverse_with_not_scale by exact S.
  assert (W' := W). unfold well_formed in W'.
  destruct (op t) as [[] |] eqn:Hop.
  - now rewrite makeInverse_noop.
  - destruct W' as (Hm & Hs).
    destruct (model t) as [m |] eqn:Em; [| now elim Hm].
    rewrite (@makeInverse_additive t translate m); auto.
    intros [= <-]. split; [discriminate |].
    now apply shaped_componentwise.
  - destruct W' as (Hm & Hs).
    destruct (model t) as [m |] eqn:Em; [| now elim Hm].
    rewrite (@makeInverse_additive t rotate m); auto.
    intros [= <-]. split; [discriminate |].
    now apply shaped_componentwise.
  - now elim S.
  - destruct W' as (Hm & Hax).
    destruct (model t) as [m |] eqn:Em; [| now elim Hm].
    unfold makeInverse. rewrite Hop, Hax, Em. simpl.
    intros [= <-]. split; [discriminate | reflexivity].
  - destruct W' as (Hm & Hax).
    destruct (model t) as [m |] eqn:Em; [| now elim Hm].
    unfold makeInverse. rewrite Hop, Hax, Em. simpl.
    intros [= <-]. split; [discriminate | reflexivity].
Qed.

Lemma neg_involutive (n : num) : neg (neg n) = n.
Proof.
  rewrite !neg_negation. destruct n; simpl; trivial.
  now rewrite Qcopp_involutive.
Qed.

Lemma componentwise_neg_involutive (amt : value) :
  componentwise neg (componentwise neg amt) = amt.
Proof.
  destruct amt; simpl; now rewrite ?neg_involutive.
Qed.

(** Two Transforms with the same op, axis, amount and model make the same
    calls, unless they are noops (which read their sink and reason) or
    rotations on "all" (which read their [inverse] flag). *)
Lemma apply_agree (t t' : transform) :
  op t = op t' -> axis t = axis t' -> amount t = amount t' ->
  model t = model t' ->
  op t <> Some noop ->
  op_is (op t) rotate && is_all (axis t) = false ->
  apply t = apply t'.
Proof.
  intros H1 H2 H3 H4 N R.
  unfold apply, call_model, the_model. rewrite <- H1, <- H2, <- H3, <- H4.
  destruct (op t) as [[] |]; trivial.
  - now elim N.
  - simpl in R. now rewrite R.
Qed.

(** X12. Inverting twice gives back the Transform, as far as the model can
    tell: for a translation, a rotation about one axis and a wireframe
    toggle of the data model, the inverse of the inverse has the op, axis
    and model of the Transform, and [apply] makes the same calls for both
    (negating an amount twice gives the amount back, exactly).  A scaling is
    left out, since dividing twice need not give the amount back, and so is
    a rotation on "all", whose double inverse keeps the [inverse] flag and
    visits z first. *)
Theorem inverse_of_inverse_acts_as_original (one_over : num -> num)
    (t : transform) :
  well_formed t ->
  op t <> Some noop ->
  op t <> Some scale ->
  op_is (op t) rotate && is_all (axis t) = false ->
  exists inv inv2,
    makeInverse_with one_over t = Ok (Some inv)
    /\ makeInverse_with one_over inv = Ok (Some inv2)
    /\ op inv2 = op t
    /\ axis inv2 = axis t
    /\ model inv2 = model t
    /\ forall log, apply inv2 log = apply t log.
Proof.
  intros W N S R. assert (W' := W). unfold well_formed in W'.
  rewrite makeInverse_with_not_scale by exact S.
  destruct (op t) as [[] |] eqn:Hop.
  - now elim N.
  - destruct W' as (Hm & Hs).
    destruct (model t) as [m |] eqn:Em; [| now elim Hm].
    do 2 eexists. split; [apply (@makeInverse_additive t translate m); auto |].
    split.
    { rewrite makeInverse_with_not_scale by discriminate.
      apply (@makeInverse_additive _ translate m); auto.
      now apply shaped_componentwise. }
    simpl. repeat split. intros log.
    apply (f_equal (fun f : Eff unit => f log)).
    apply apply_agree; simpl; rewrite ?Hop, ?Em, ?componentwise_neg_involutive;
      auto.
  - destruct W' as (Hm & Hs).
    destruct (model t) as [m |] eqn:Em; [| now elim Hm].
    do 2 eexists. split; [apply (@makeInverse_additive t rotate m); auto |].
    split.
    { rewrite makeInverse_with_not_scale by discriminate.
      apply (@makeInverse_additive _ rotate m); auto.
      now apply shaped_componentwise. }
    simpl. repeat split. intros log.
    assert (Hall : is_all (axis t) = false) by exact R.
    unfold apply. simpl. rewrite Hop, Hall, componentwise_neg_involutive.
    unfold call_model, the_model. simpl. now rewrite Em.
  - now elim S.
  - destruct W' as (Hm & Hax).
    destruct (model t) as [m |] eqn:Em; [| now elim Hm].
    unfold makeInverse_with, makeInverse. rewrite Hop, Hax, Em. simpl.
    do 2 eexists. split; [reflexivity |]. simpl.
    split; [reflexivity |]. repeat split; auto. intros log.
    unfold apply, the_model. simpl. now rewrite Hop, Em.
  - destruct W' as (Hm & Hax).
    destruct (model t) as [m |] eqn:Em; [| now elim Hm].
    unfold makeInverse_with, makeInverse. rewrite Hop, Hax, Em. simpl.
    do 2 eexists. split; [reflexivity |]. simpl.
    split; [reflexivity |]. repeat split; auto. intros log.
    unfold apply. simpl. now rewrite Hop.
Qed.

(** ** setAmount *)

Lemma Qinv_negative (q : Q) : (q < 0)%Q -> (/ q <= 0)%Q.
Proof.
  destruct q as [[| n | n] d]; unfold Qlt, Qle, Qinv; simpl; lia.
Qed.

Lemma recip_negative (q : Qc) :
  (q < 0)%Qc ->
  recip (Fin q) = Fin (1 / q)%Qc /\ le0 (Fin (1 / q)%Qc) = true.
Proof.
  intros H. split.
  - simpl. destruct (Qeq_bool q 0%Q) eqn:E; trivial.
    apply Qeq_bool_zero in E. subst q. now apply Qclt_not_eq in H.
  - assert (E : (1 / q)%Qc = (/ q)%Qc) by (unfold Qcdiv; ring).
    rewrite E. unfold le0. apply Qle_bool_iff.
    change (this (/ q)%Qc) with (Qred (/ q)).
    rewrite Qred_correct. now apply Qinv_negative.
Qed.

(** X13. [setAmount] stores the amount without the validation of the
    constructor: after it sets a negative amount on a scale Transform of one
    axis, [apply] scales the model by that negative amount, and [makeInverse]
    returns a noop, since the constructor rejects the negative reciprocal:
    that scaling cannot be undone. *)
Theorem setAmount_skips_validation (t : transform) (b : Qc) (m : Model)
    (log : list event) :
  op t = Some scale ->
  is_all (axis t) = false ->
  model t = Some m ->
  (b < 0)%Qc ->
  let t' := setAmount (Num (Fin b)) t in
  op t' = Some scale
  /\ apply t' log =
       (Ok tt, log ++ [ModelScale (ident m) (axis t) (Num (Fin b))])
  /\ exists inv,
      makeInverse t' = Ok (Some inv)
      /\ op inv = Some noop
      /\ forall log', model_calls (snd (apply inv log')) = model_calls log'.
Proof.
  intros Hop Hall Hm Hb t'. subst t'.
  destruct (@recip_negative b Hb) as (Er & El).
  split; [exact Hop |]. split.
  - unfold apply, setAmount. simpl. rewrite Hop, Hall.
    now apply call_model_Ok.
  - unfold makeInverse, setAmount. simpl (op _). simpl (axis _).
    simpl (amount _). simpl (model _). rewrite Hop, Hall, Hm.
    cbn [op_is Op_eqb option_map op_name to_number obind].
    rewrite Er. unfold Transform. cbn [is_case]. simpl String.eqb. cbv iota.
    unfold isBadScale. cbn [to_number]. rewrite El. cbn [obind].
    eexists. split; [reflexivity |]. split; [reflexivity |].
    intros log'. unfold apply. simpl. apply model_calls_warn.
Qed.

(** X14. [makeInverse] inverts the amount that the Transform has when it is
    called: after a translation by [d1] is applied, its amount is set to
    [d2] and it is applied again, the inverse translates by [-d2] only, so that
    applying it leaves the model displaced by [d1]. *)
Theorem inverse_undoes_only_last_amount (ax : Axis) (d1 d2 : Qc) (m : Model)
    (p : option nat) (log : list event) (s0 : position) :
  is_all (Some ax) = false ->
  exists t inv log1 log2 log3,
    Transform (Some "translate") (Some ax) (Num (Fin d1)) (Some m) p = Ok t
    /\ apply t log = (Ok tt, log1)
    /\ apply (setAmount (Num (Fin d2)) t) log1 = (Ok tt, log2)
    /\ makeInverse (setAmount (Num (Fin d2)) t) = Ok (Some inv)
    /\ amount inv = Num (Fin (- d2)%Qc)
    /\ apply inv log2 = (Ok tt, log3)
    /\ position_state (ident m) s0 log3
       = translate_axis ax d1 (position_state (ident m) s0 log).
Proof.
  intros H.
  destruct ax; try discriminate H; do 5 eexists;
    (split; [reflexivity |]); (split; [run_apply |]);
    (split; [run_apply |]); (split; [reflexivity |]);
    (split; [reflexivity |]); (split; [run_apply |]);
    rewrite !position_state_app; simpl; rewrite Nat.eqb_refl;
    change (Q2Qc (-1)%Q * d2)%Qc with (- d2)%Qc;
    destruct (position_state (ident m) s0 log); simpl; f_equal; ring.
Qed.

(** X15. The amount [Infinity] passes the validation of "scale" (it is not
    [<= 0]), but its reciprocal is 0: the inverse of a scaling by [Infinity]
    on one axis is a noop, which only warns on the console. *)
Theorem infinite_scale_has_noop_inverse (ax : option Axis) (m : Model)
    (p : option nat) (log : list event) :
  is_all ax = false ->
  exists t inv,
    Transform (Some "scale") ax (Num PInf) (Some m) p = Ok t
    /\ op t = Some scale
    /\ apply t log = (Ok tt, log ++ [ModelScale (ident m) ax (Num PInf)])
    /\ makeInverse t = Ok (Some inv)
    /\ op inv = Some noop
    /\ exists r,
        apply inv log = (Ok tt, log ++ [Warn console (Some r)]).
Proof.
  intros H. do 2 eexists. split; [reflexivity |]. split; [reflexivity |].
  split.
  { unfold apply. simpl. rewrite H. now apply call_model_Ok. }
  unfold makeInverse. simpl. rewrite H. simpl.
  split; [reflexivity |]. split; [reflexivity |].
  eexists. reflexivity.
Qed.

(** ** The undo history as a stack *)

Lemma push_all_snoc (ts : list transform) (t : transform) (s : undo_stack) :
  push_all (ts ++ [t]) s = push (Some t) (push_all ts s).
Proof.
  unfold push_all. now rewrite fold_left_app.
Qed.

Lemma history_push_all (ts : list transform) (s : undo_stack) :
  history (push_all ts s) = history s ++ ts.
Proof.
  induction ts as [| t ts IH] using rev_ind.
  - simpl. now rewrite app_nil_r.
  - rewrite push_all_snoc. simpl. now rewrite IH, app_assoc.
Qed.

(** X16. The history is a stack of any depth: after the Transforms of a
    list are pushed on a stack, as many calls of [undo] apply them from the
    last pushed to the first, and leave the stack as it was before the
    pushes, with the entries it had. *)
Theorem undo_is_last_in_first_out (ts : list transform) (s : undo_stack)
    (log : list event) :
  history (push_all ts s) = history s ++ ts
  /\ undo_times (List.length ts) (push_all ts s) log
     = (s, apply_each (rev ts) log).
Proof.
  split; [apply history_push_all |].
  revert log. induction ts as [| t ts IH] using rev_ind; intros log.
  - reflexivity.
  - rewrite push_all_snoc, length_app, Nat.add_comm, rev_app_distr.
    cbn [List.length Nat.add undo_times rev app]. rewrite undo_push.
    cbn [fst snd]. now rewrite IH.
Qed.

(** X17. [clear] drops the whole history, whatever was pushed: after it,
    any number of calls of [undo] leave the stack empty and only send that
    many warnings to the sink of the stack; no model is called. *)
Theorem undo_after_clear_only_warns (ts : list transform) (s : undo_stack)
    (n : nat) (log : list event) :
  let report :=
    Warn (stack_printout s) (Some "No undo history available.") in
  history (clear (push_all ts s)) = []
  /\ undo_times n (clear (push_all ts s)) log
     = (clear (push_all ts s), log ++ repeat report n)
  /\ model_calls (log ++ repeat report n) = model_calls log.
Proof.
  intros report.
  assert (P : stack_printout (push_all ts s) = stack_printout s).
  { induction ts as [| t ts IH] using rev_ind; trivial.
    now rewrite push_all_snoc. }
  split; [reflexivity |]. split.
  - revert log. induction n as [| n IH]; intros log.
    + simpl. now rewrite app_nil_r.
    + cbn [undo_times]. rewrite undo_after_clear. cbn [fst snd].
      unfold emit at 1. cbn [snd]. rewrite IH, P.
      now rewrite <- app_assoc.
  - rewrite model_calls_app.
    assert (E : model_calls (repeat report n) = []).
    { induction n; simpl; trivial. }
    rewrite E. apply app_nil_r.
Qed.

(** ** setDynamicStart *)

(** X19. [setDynamicStart] sets the [dynamic] flag and the [start] value
    and nothing that the rest of the code reads: [apply] makes the same calls
    and [makeInverse] returns the same inverse as before it. *)
Theorem setDynamicStart_is_inert (v : value) (t : transform) :
  dynamic (setDynamicStart v t) = Some true
  /\ start (setDynamicStart v t) = v
  /\ apply (setDynamicStart v t) = apply t
  /\ makeInverse (setDynamicStart v t) = makeInverse t.
Proof.
  split; [reflexivity |]. split; [reflexivity |].
  split; [now apply apply_eq | reflexivity].
Qed.

End Embedding.

(** * The results on concrete inputs

    The results that have a premise, run on a concrete Transform, with
    [ratio_toString] as the rendering of numbers. *)

Lemma scale_then_inverse_restores_witness :
  shaped (Some axAll) (Arr (integer 2) (integer 3) (integer 5))
  /\ all_positive (Arr (integer 2) (integer 3) (integer 5))
  /\ exists t inv log1 log2,
      Transform ratio_toString (Some "scale") (Some axAll)
        (Arr (integer 2) (integer 3) (integer 5)) (Some sample_model) None
      = Ok t
      /\ op t = Some scale
      /\ makeInverse ratio_toString t = Ok (Some inv)
      /\ apply t [] = (Ok tt, log1)
      /\ apply inv log1 = (Ok tt, log2)
      /\ scale_state 1 {| sx := 1; sy := 1; sz := 1 |}%Qc log2
         = scale_state 1 {| sx := 1; sy := 1; sz := 1 |}%Qc [].
Proof.
  assert (P : all_positive (Arr (integer 2) (integer 3) (integer 5)))
    by (repeat split; reflexivity).
  split; [reflexivity |]. split; [exact P |].
  apply (@scale_then_inverse_restores ratio_toString axAll
           (Arr (integer 2) (integer 3) (integer 5)) sample_model None [] 1
           {| sx := 1; sy := 1; sz := 1 |}%Qc).
  - reflexivity.
  - exact P.
Defined.

Lemma scale_all_uses_first_component_witness :
  let t := set_amount (Arr (integer 2) (integer 3) (integer 5))
             (set_axis (Some axAll)
                (set_op scale (started sample_model None))) in
  op t = Some scale
  /\ axis t = Some axAll
  /\ amount t = Arr (integer 2) (integer 3) (integer 5)
  /\ model t = Some sample_model
  /\ apply t [] =
       (Ok tt, [ModelScale 1 (Some axX) (Num (integer 2));
                ModelScale 1 (Some axY) (Num (integer 2));
                ModelScale 1 (Some axZ) (Num (integer 2))]).
Proof.
  intros t. repeat (split; [reflexivity |]).
  apply (@scale_all_uses_first_component t (integer 2) (integer 3)
           (integer 5) sample_model []); reflexivity.
Defined.

Lemma makeInverse_of_data_model_witness :
  let t := set_amount (Arr (integer 2) (integer 4) (integer 5))
             (set_axis (Some axAll)
                (set_op scale (started sample_model None))) in
  (forall n, positive n -> le0 (recip n) = false)
  /\ well_formed t
  /\ op t <> Some noop
  /\ exists inv,
      makeInverse_with ratio_toString recip t = Ok (Some inv)
      /\ op inv = op t
      /\ axis inv = axis t
      /\ model inv = model t
      /\ inverse inv = Some true
      /\ match op t with
         | Some translate | Some rotate =>
             amount inv = componentwise negation (amount t)
         | Some scale =>
             amount inv = componentwise recip (amount t)
         | _ => True
         end.
Proof.
  intros t.
  assert (W : well_formed t).
  { split; [discriminate |]. split; [reflexivity |]. repeat split. }
  assert (N : op t <> Some noop) by discriminate.
  split; [exact recip_not_le0 |]. split; [exact W |]. split; [exact N |].
  exact (@makeInverse_of_data_model ratio_toString recip t recip_not_le0 W N).
Defined.

(** C4, as it was worded, fails on Transforms that the constructor returns:
    a scaling by [Infinity] is not a noop and its inverse is one (the
    reciprocal 0 is rejected), and a translation on "all" by a single number
    has an inverse whose amount is a triple of [NaN], not the negated
    number. *)
Lemma makeInverse_of_every_non_noop_counterexample :
  (exists t,
      Transform ratio_toString (Some "scale") (Some axX) (Num PInf)
        (Some sample_model) None = Ok t
      /\ op t <> Some noop
      /\ ~ (exists inv,
              makeInverse ratio_toString t = Ok (Some inv)
              /\ op inv = op t))
  /\ (exists t,
      Transform ratio_toString (Some "translate") (Some axAll)
        (Num (integer 5)) (Some sample_model) None = Ok t
      /\ op t = Some translate
      /\ ~ (exists inv,
              makeInverse ratio_toString t = Ok (Some inv)
              /\ amount inv = componentwise negation (amount t))).
Proof.
  split.
  - eexists. split; [reflexivity |]. split; [discriminate |].
    intros (inv & H & E). simpl in H. injection H as <-. discriminate E.
  - eexists. split; [reflexivity |]. split; [reflexivity |].
    intros (inv & H & E). simpl in H. injection H as <-. discriminate E.
Qed.

Lemma nonpositive_scale_is_noop_witness :
  some_nonpositive (Arr (integer 2) (integer 0) (integer 5))
  /\ exists t r,
      Transform ratio_toString (Some "scale") (Some axAll)
        (Arr (integer 2) (integer 0) (integer 5)) (Some sample_model) (Some 4)
      = Ok t
      /\ op t = Some noop
      /\ reason t = Some r
      /\ r <> ""
      /\ apply t [] = (Ok tt, [] ++ [Warn (sink_or_console (Some 4)) (Some r)])
      /\ model_calls ([] ++ [Warn (sink_or_console (Some 4)) (Some r)])
         = model_calls [].
Proof.
  assert (H : some_nonpositive (Arr (integer 2) (integer 0) (integer 5))).
  { right. left. simpl. discriminate. }
  split; [exact H |].
  exact (@nonpositive_scale_is_noop ratio_toString (Some axAll)
           (Arr (integer 2) (integer 0) (integer 5)) (Some sample_model)
           (Some 4) [] H).
Defined.

Lemma makeInverse_null_iff_noop_witness :
  let t := set_reason "Model doesn't exist." (set_op noop (fresh console)) in
  op t = Some noop
  /\ exists r,
      makeInverse ratio_toString t = Ok r
      /\ history (push r (UndoStack None)) = history (UndoStack None).
Proof.
  intros t. split; [reflexivity |].
  apply (@makeInverse_null_iff_noop ratio_toString t t (UndoStack None)).
  reflexivity.
Defined.

Lemma unknown_op_leaves_op_unset_witness :
  known_op (Some "shear") = false
  /\ exists t,
      Transform ratio_toString (Some "shear") (Some axX) (Num (integer 2))
        (Some sample_model) None = Ok t
      /\ op t = None
      /\ t = set_dynamic false (set_model sample_model
                                  (fresh (sink_or_console None)))
      /\ apply t [] = (Ok tt, []).
Proof.
  split; [reflexivity |].
  apply (@unknown_op_leaves_op_unset ratio_toString (Some "shear") (Some axX)
           (Num (integer 2)) sample_model None []).
  reflexivity.
Defined.

(** ** The further properties on concrete inputs *)

Lemma scale_validation_is_exact_witness :
  finite (Num (integer 3))
  /\ exists t,
      Transform ratio_toString (Some "scale") (Some axAll) (Num (integer 3))
        (Some sample_model) None = Ok t
      /\ ((all_positive (Num (integer 3))
           /\ op t = Some scale /\ axis t = Some axAll
           /\ amount t = Num (integer 3))
          \/ (some_nonpositive (Num (integer 3))
              /\ op t = Some noop /\ axis t = None /\ amount t = Undef)).
Proof.
  split; [exact I |].
  exact (@scale_validation_is_exact ratio_toString (Some axAll)
           (Num (integer 3)) sample_model None I).
Defined.

Lemma inverse_reports_to_console_witness :
  let t := set_amount (Num (integer 3))
             (set_axis (Some axX)
                (set_op translate (started sample_model (Some 4)))) in
  let inv := set_inverse true
               (set_amount (Num (integer (-3)))
                  (set_axis (Some axX)
                     (set_op translate (started sample_model None)))) in
  printout t = custom 4
  /\ makeInverse ratio_toString t = Ok (Some inv)
  /\ printout inv = console /\ inverse inv = Some true.
Proof.
  intros t inv.
  assert (H : makeInverse ratio_toString t = Ok (Some inv)) by reflexivity.
  split; [reflexivity |]. split; [exact H |].
  exact (@inverse_reports_to_console ratio_toString t inv H).
Defined.

Lemma apply_of_well_formed_witness :
  let t := set_amount (Arr (integer 1) (integer 2) (integer 3))
             (set_axis (Some axAll)
                (set_op translate (started sample_model None))) in
  well_formed t
  /\ exists evs,
      apply t [] = (Ok tt, [] ++ evs) /\ List.length evs = call_count t.
Proof.
  intros t.
  assert (W : well_formed t) by (split; [discriminate | reflexivity]).
  split; [exact W |].
  exact (@apply_of_well_formed t [] W).
Defined.

Lemma translate_rotate_all_use_each_component_witness :
  let t := set_amount (Arr (integer 1) (integer 2) (integer 3))
             (set_axis (Some axAll)
                (set_op translate (started sample_model None))) in
  axis t = Some axAll
  /\ amount t = Arr (integer 1) (integer 2) (integer 3)
  /\ model t = Some sample_model
  /\ inverse_truthy t = false
  /\ op t = Some translate
  /\ apply t [] =
       (Ok tt, [] ++ [ModelTranslate 1 (Some axX) (Num (integer 1));
                      ModelTranslate 1 (Some axY) (Num (integer 2));
                      ModelTranslate 1 (Some axZ) (Num (integer 3))]).
Proof.
  intros t. repeat (split; [reflexivity |]).
  apply (@translate_rotate_all_use_each_component t (integer 1) (integer 2)
           (integer 3) sample_model []); reflexivity.
Defined.

Lemma translate_then_undo_restores_witness :
  let t := set_amount (Arr (integer 1) (integer 2) (integer 3))
             (set_axis (Some axAll)
                (set_op translate (started sample_model None))) in
  let s0 := {| px := 0; py := 0; pz := 0 |}%Qc in
  well_formed t
  /\ op t = Some translate
  /\ finite (amount t)
  /\ exists inv log1 log2,
      makeInverse ratio_toString t = Ok (Some inv)
      /\ apply t [] = (Ok tt, log1)
      /\ undo (push (Some inv) (UndoStack None)) = (UndoStack None, apply inv)
      /\ apply inv log1 = (Ok tt, log2)
      /\ position_state 1 s0 log2 = position_state 1 s0 [].
Proof.
  intros t s0.
  assert (W : well_formed t) by (split; [discriminate | reflexivity]).
  split; [exact W |]. split; [reflexivity |]. split; [exact I |].
  exact (@translate_then_undo_restores ratio_toString t (UndoStack None) []
           1 s0 W eq_refl I).
Defined.

Lemma makeInverse_keeps_well_formed_witness :
  let t := set_amount (Num (integer 2))
             (set_axis (Some axY)
                (set_op translate (started sample_model None))) in
  let inv := set_inverse true
               (set_amount (Num (integer (-2)))
                  (set_axis (Some axY)
                     (set_op translate (started sample_model None)))) in
  well_formed t
  /\ op t <> Some scale
  /\ makeInverse_with ratio_toString recip t = Ok (Some inv)
  /\ well_formed inv.
Proof.
  intros t inv.
  assert (W : well_formed t) by (split; [discriminate | reflexivity]).
  assert (S : op t <> Some scale) by discriminate.
  assert (H : makeInverse_with ratio_toString recip t = Ok (Some inv))
    by reflexivity.
  split; [exact W |]. split; [exact S |]. split; [exact H |].
  exact (@makeInverse_keeps_well_formed ratio_toString recip t inv W S H).
Defined.

Lemma inverse_of_inverse_acts_as_original_witness :
  let t := set_amount (Num (integer 2))
             (set_axis (Some axY) (set_op rotate (started sample_model None))) in
  well_formed t
  /\ op t <> Some noop
  /\ op t <> Some scale
  /\ op_is (op t) rotate && is_all (axis t) = false
  /\ exists inv inv2,
      makeInverse_with ratio_toString recip t = Ok (Some inv)
      /\ makeInverse_with ratio_toString recip inv = Ok (Some inv2)
      /\ op inv2 = op t
      /\ axis inv2 = axis t
      /\ model inv2 = model t
      /\ forall log, apply inv2 log = apply t log.
Proof.
  intros t.
  assert (W : well_formed t) by (split; [discriminate | reflexivity]).
  assert (N : op t <> Some noop) by discriminate.
  assert (S : op t <> Some scale) by discriminate.
  split; [exact W |]. split; [exact N |]. split; [exact S |].
  split; [reflexivity |].
  exact (@inverse_of_inverse_acts_as_original ratio_toString recip t W N S
           eq_refl).
Defined.

Lemma setAmount_skips_validation_witness :
  let t := set_amount (Num (integer 2))
             (set_axis (Some axY) (set_op scale (started sample_model None))) in
  let b := Q2Qc (-3 # 2) in
  op t = Some scale
  /\ is_all (axis t) = false
  /\ model t = Some sample_model
  /\ (b < 0)%Qc
  /\ op (setAmount (Num (Fin b)) t) = Some scale
  /\ apply (setAmount (Num (Fin b)) t) [] =
       (Ok tt, [] ++ [ModelScale 1 (axis t) (Num (Fin b))])
  /\ exists inv,
      makeInverse ratio_toString (setAmount (Num (Fin b)) t) = Ok (Some inv)
      /\ op inv = Some noop
      /\ forall log', model_calls (snd (apply inv log')) = model_calls log'.
Proof.
  intros t b.
  assert (Hb : (b < 0)%Qc) by reflexivity.
  do 4 (split; [reflexivity |]).
  exact (@setAmount_skips_validation ratio_toString t b sample_model []
           eq_refl eq_refl eq_refl Hb).
Defined.

Lemma inverse_undoes_only_last_amount_witness :
  let s0 := {| px := 0; py := 0; pz := 0 |}%Qc in
  is_all (Some axX) = false
  /\ exists t inv log1 log2 log3,
      Transform ratio_toString (Some "translate") (Some axX)
        (Num (Fin (Q2Qc 5))) (Some sample_model) None = Ok t
      /\ apply t [] = (Ok tt, log1)
      /\ apply (setAmount (Num (Fin (Q2Qc 7))) t) log1 = (Ok tt, log2)
      /\ makeInverse ratio_toString (setAmount (Num (Fin (Q2Qc 7))) t)
         = Ok (Some inv)
      /\ amount inv = Num (Fin (- Q2Qc 7)%Qc)
      /\ apply inv log2 = (Ok tt, log3)
      /\ position_state (ident sample_model) s0 log3
         = translate_axis axX (Q2Qc 5)
             (position_state (ident sample_model) s0 []).
Proof.
  intros s0. split; [reflexivity |].
  exact (@inverse_undoes_only_last_amount ratio_toString axX (Q2Qc 5)
           (Q2Qc 7) sample_model None [] s0 eq_refl).
Defined.

Lemma infinite_scale_has_noop_inverse_witness :
  is_all (Some axZ) = false
  /\ exists t inv,
      Transform ratio_toString (Some "scale") (Some axZ) (Num PInf)
        (Some sample_model) None = Ok t
      /\ op t = Some scale
      /\ apply t [] = (Ok tt, [] ++ [ModelScale 1 (Some axZ) (Num PInf)])
      /\ makeInverse ratio_toString t = Ok (Some inv)
      /\ op inv = Some noop
      /\ exists r, apply inv [] = (Ok tt, [] ++ [Warn console (Some r)]).
Proof.
  split; [reflexivity |].
  exact (@infinite_scale_has_noop_inverse ratio_toString (Some axZ)
           sample_model None [] eq_refl).
Defined.

Lemma Transform_well_formed_witness :
  let t := set_amount (Arr (integer 2) (integer 3) (integer 5))
             (set_axis (Some axAll)
                (set_op scale (started sample_model None))) in
  shaped (Some axAll) (Arr (integer 2) (integer 3) (integer 5))
  /\ finite (Arr (integer 2) (integer 3) (integer 5))
  /\ Transform ratio_toString (Some "scale") (Some axAll)
       (Arr (integer 2) (integer 3) (integer 5)) (Some sample_model) None
     = Ok t
  /\ well_formed t.
Proof.
  intros t.
  assert (H : Transform ratio_toString (Some "scale") (Some axAll)
                (Arr (integer 2) (integer 3) (integer 5)) (Some sample_model)
                None = Ok t) by reflexivity.
  split; [reflexivity |]. split; [exact I |]. split; [exact H |].
  exact (@Transform_well_formed ratio_toString (Some "scale") (Some axAll)
           (Arr (integer 2) (integer 3) (integer 5)) (Some sample_model) None
           t eq_refl I H).
Defined.
